(** * Session task pipeline, repo integrations and column form: a shallow embedding

    The development follows the TypeScript sources:
    - [Js]: JavaScript strings as sequences of UTF-16 code units, with
      [String.prototype.trim] and anchored regular-expression tests;
    - [AddColumnModal]: the submit handler of the add-column form;
    - [RepoIntegrationsRoute]: the cookie-backed repo-integrations route
      (POST / DELETE) on stores of its declared type;
    - [RepoIntegrationsJs]: the same route (GET / POST / DELETE) on the
      values the runtime hands it: any JSON value in the cookie, entries
      with any keys, names found on the prototype chain;
    - [DeclaredType]: the typed stores, bodies and responses as run-time
      values;
    - [ChatServer]: the [/api/chat] handler of [backend/server.ts] as given
      in the routing plan (spawn, stdout / stderr / close handlers);
    - [Workspace]: the submit and commit handlers of the workspace page;
    - [FileViewer]: the classification of a file by its name and the
      decoding of its content. *)

From stdpp Require Import gmap strings list.
From Stdlib Require Import ZArith NArith Ascii Lia.

Local Open Scope N_scope.

(** ** JavaScript strings *)

Module Js.

(** A JavaScript string is a sequence of 16-bit code units. *)
Definition str := list N.

(** A literal whose characters are all below U+0100. *)
Definition lit (s : string) : str :=
  map (fun a => N_of_ascii a) (String.list_ascii_of_string s).

(** [!s] on a string: only the empty string is falsy. *)
Definition falsy (s : str) : bool :=
  match s with [] => true | _ => false end.

(** WhiteSpace and LineTerminator code points of ECMAScript, the
    characters [trim] strips. *)
Definition is_white_space (c : N) : bool :=
  (9 <=? c) && (c <=? 13)              (* TAB, LF, VT, FF, CR *)
  || (c =? 32)                         (* SPACE *)
  || (c =? 160)                        (* NO-BREAK SPACE *)
  || (c =? 5760)                       (* U+1680 *)
  || (8192 <=? c) && (c <=? 8202)      (* U+2000 .. U+200A *)
  || (c =? 8232) || (c =? 8233)        (* U+2028, U+2029 *)
  || (c =? 8239)                       (* U+202F *)
  || (c =? 8287)                       (* U+205F *)
  || (c =? 12288)                      (* U+3000 *)
  || (c =? 65279).                     (* U+FEFF *)

Fixpoint trimStart (s : str) : str :=
  match s with
  | [] => []
  | c :: s' => if is_white_space c then trimStart s' else s
  end.

Definition trimEnd (s : str) : str := rev (trimStart (rev s)).

Definition trim (s : str) : str := trimEnd (trimStart s).

(** *** Regular expressions over code units

    Only what the sources use: character classes, sequence, alternation
    and star.  A pattern written [/^r$/] (no flags) succeeds on [s] exactly
    when [r] matches the whole of [s]; matching is by derivatives. *)

Inductive regex :=
| Never
| Eps
| Class (p : N -> bool)
| Seq (r1 r2 : regex)
| Alt (r1 r2 : regex)
| Star (r : regex).

Fixpoint nullable (r : regex) : bool :=
  match r with
  | Never => false
  | Eps => true
  | Class _ => false
  | Seq r1 r2 => nullable r1 && nullable r2
  | Alt r1 r2 => nullable r1 || nullable r2
  | Star _ => true
  end.

Definition seq (r1 r2 : regex) : regex :=
  match r1 with
  | Never => Never
  | Eps => r2
  | _ => Seq r1 r2
  end.

Definition alt (r1 r2 : regex) : regex :=
  match r1, r2 with
  | Never, _ => r2
  | _, Never => r1
  | _, _ => Alt r1 r2
  end.

Fixpoint deriv (c : N) (r : regex) : regex :=
  match r with
  | Never => Never
  | Eps => Never
  | Class p => if p c then Eps else Never
  | Seq r1 r2 =>
      alt (seq (deriv c r1) r2) (if nullable r1 then deriv c r2 else Never)
  | Alt r1 r2 => alt (deriv c r1) (deriv c r2)
  | Star r1 => seq (deriv c r1) (Star r1)
  end.

Fixpoint matches (r : regex) (s : str) : bool :=
  match s with
  | [] => nullable r
  | c :: s' => matches (deriv c r) s'
  end.

(** [/^r$/.test(s)] *)
Definition test_anchored (r : regex) (s : str) : bool := matches r s.

Definition in_range (lo hi c : N) : bool := (lo <=? c) && (c <=? hi).

Definition is_lower (c : N) : bool := in_range 97 122 c.   (* a-z *)
Definition is_upper (c : N) : bool := in_range 65 90 c.    (* A-Z *)
Definition is_digit (c : N) : bool := in_range 48 57 c.    (* 0-9 *)
Definition is_underscore (c : N) : bool := c =? 95.        (* _ *)

(** [s.split(sep)] for a separator of one code unit. The result is never
    empty: the empty string splits into one empty piece. *)
Fixpoint split (sep : N) (s : str) : list str :=
  match s with
  | [] => [[]]
  | c :: s' =>
      if c =? sep then [] :: split sep s'
      else match split sep s' with
           | [] => [[c]]
           | l :: ls => (c :: l) :: ls
           end
  end.

(** [a.join(sep)] for a separator of one code unit. *)
Fixpoint join (sep : N) (a : list str) : str :=
  match a with
  | [] => []
  | x :: a' =>
      match a' with
      | [] => x
      | _ :: _ => x ++ sep :: join sep a'
      end
  end.

(** [s.startsWith(p)] *)
Fixpoint startsWith (p s : str) : bool :=
  match p, s with
  | [], _ => true
  | _ :: _, [] => false
  | a :: p', b :: s' => (a =? b) && startsWith p' s'
  end.

(** [a.includes(x)] on an array of strings. *)
Definition includes (a : list str) (x : str) : bool := bool_decide (x ∈ a).

Definition LF : N := 10.      (* the separator of split(newline) *)
Definition DOT : N := 46.     (* '.' *)
Definition SLASH : N := 47.   (* '/' *)

End Js.

(** ** AddColumnModal: the submit handler *)

Module AddColumnModal.
Import Js.

Record ColumnDefinition := {
  col_name : str;
  col_type : str;
  col_nullable : bool;
  col_defaultValue : str;
}.

(** The component state (the five [useState] cells). *)
Record State := {
  name : str;
  type : str;
  nullable : bool;
  defaultValue : str;
  error : str;
}.

(** [[a-zA-Z_]] and [[a-zA-Z0-9_]] *)
Definition class_head (c : N) : bool :=
  is_lower c || is_upper c || is_underscore c.
Definition class_tail (c : N) : bool :=
  is_lower c || is_upper c || is_digit c || is_underscore c.

(** [/^[a-zA-Z_][a-zA-Z0-9_]*$/] *)
Definition identifier_re : regex :=
  Seq (Class class_head) (Star (Class class_tail)).

Definition msg_required : str := lit "Column name is required".
Definition msg_invalid : str :=
  lit "Column name must start with a letter or underscore and contain only letters, numbers, and underscores".

Definition set_error (e : str) (st : State) : State :=
  {| name := name st; type := type st; nullable := nullable st;
     defaultValue := defaultValue st; error := e |}.

(** [handleSubmit]: the new state and the argument of [onAdd], if it is
    called. *)
Definition handleSubmit (st : State) : State * option ColumnDefinition :=
  let st := set_error [] st in
  if falsy (trim (name st)) then
    (set_error msg_required st, None)
  else if negb (test_anchored identifier_re (trim (name st))) then
    (set_error msg_invalid st, None)
  else
    ({| name := []; type := lit "text"; nullable := true;
        defaultValue := []; error := error st |},
     Some {| col_name := trim (name st);
             col_type := type st;
             col_nullable := nullable st;
             col_defaultValue := trim (defaultValue st) |}).

(** The claim's wording of a valid identifier: non-empty, starting with a
    letter or underscore, containing only letters, digits and
    underscores. *)
Definition is_letter (c : N) : bool := is_lower c || is_upper c.

Definition valid_identifier (s : str) : bool :=
  match s with
  | [] => false
  | c :: _ =>
      (is_letter c || is_underscore c)
      && forallb (fun c => is_letter c || is_digit c || is_underscore c) s
  end.

(** The state the component starts in (the [useState] initial values). *)
Definition initial_state : State :=
  {| name := []; type := lit "text"; nullable := true;
     defaultValue := []; error := [] |}.

(** [handleClose]: every cell is reset, then [onClose] is called. *)
Definition handleClose (st : State) : State :=
  {| name := []; type := lit "text"; nullable := true;
     defaultValue := []; error := [] |}.

End AddColumnModal.

Local Close Scope N_scope.

(** ** The repo-integrations route (cookie-backed store)

    The two handlers that write the store, on data of the declared type
    [RepoIntegrations]: the cookie holds an object whose entries have no
    other key than [vercel] and [supabase], and the repo named is an own
    key of it or is found nowhere. What the handlers do with any other
    cookie or name is the subject of [RepoIntegrationsJs] below. *)

Module RepoIntegrationsRoute.

(** [RepoIntegration]: both services are optional properties. *)
Record VercelLink := { v_projectId : string; v_projectName : string }.
Record SupabaseLink := { s_projectRef : string; s_projectName : string }.

Record RepoIntegration := {
  vercel : option VercelLink;
  supabase : option SupabaseLink;
}.

(** [RepoIntegrations]: an object indexed by the repo's full name. *)
Abbreviation RepoIntegrations := (gmap string RepoIntegration).

(** The object literal [{}]. *)
Definition empty_entry : RepoIntegration :=
  {| vercel := None; supabase := None |}.

(** [Object.keys(entry).length] *)
Definition Object_keys_length (e : RepoIntegration) : nat :=
  (match vercel e with Some _ => 1 | None => 0 end)
  + (match supabase e with Some _ => 1 | None => 0 end).

(** A body property: absent ([undefined]), [null], or a value. *)
Inductive Field (A : Type) :=
| Undefined
| Null
| Value (a : A).
Arguments Undefined {A}.
Arguments Null {A}.
Arguments Value {A} a.

Inductive Service := svc_vercel | svc_supabase.

Record PostBody := {
  post_repo : option string;
  post_vercel : Field VercelLink;
  post_supabase : Field SupabaseLink;
}.

Record DeleteBody := {
  del_repo : option string;
  del_service : option string;
}.

Inductive Payload :=
| ErrorBody (error : string)
| GetOne (integrations : RepoIntegration)
| GetAll (integrations : RepoIntegrations)
| PostOk (integrations : RepoIntegration)
| DeleteOk.

(** A response: status, JSON payload, and the value handed to
    [setRepoIntegrations] when the handler sets the cookie. *)
Record Response := {
  status : nat;
  payload : Payload;
  set_cookie : option RepoIntegrations;
}.

Definition json (p : Payload) : Response :=
  {| status := 200; payload := p; set_cookie := None |}.

Definition bad_request (msg : string) : Response :=
  {| status := 400; payload := ErrorBody msg; set_cookie := None |}.

Definition setRepoIntegrations (r : Response) (m : RepoIntegrations) : Response :=
  {| status := status r; payload := payload r; set_cookie := Some m |}.

(** [!s] for a possibly absent string. *)
Definition falsy (s : option string) : bool :=
  match s with
  | None => true
  | Some s => if decide (s = "") then true else false
  end.

(** The text [service must be "vercel" or "supabase"]. *)
Definition dquote : string := String "034"%char EmptyString.
Definition msg_service : string :=
  "service must be " +:+ dquote +:+ "vercel" +:+ dquote
  +:+ " or " +:+ dquote +:+ "supabase" +:+ dquote.

Definition set_vercel (v : option VercelLink) (e : RepoIntegration) :=
  {| vercel := v; supabase := supabase e |}.
Definition set_supabase (s : option SupabaseLink) (e : RepoIntegration) :=
  {| vercel := vercel e; supabase := s |}.

Section Route.

(** [JSON.parse] on the cookie text; [None] when it throws. *)
Variable JSON_parse : string -> option RepoIntegrations.

(** [cookie] is the value of the [repo_integrations] cookie, [None] when
    the cookie is absent. *)
Definition getRepoIntegrations (cookie : option string) : RepoIntegrations :=
  match cookie with
  | None => ∅
  | Some text =>
      if falsy (Some text) then ∅
      else match JSON_parse text with
           | Some m => m
           | None => ∅
           end
  end.

(** POST: [body] is [None] when [request.json()] throws. *)
Definition POST (cookie : option string) (body : option PostBody) : Response :=
  match body with
  | None => bad_request "Invalid request body"
  | Some b =>
      if falsy (post_repo b) then bad_request "repo is required"
      else
        let repo := default "" (post_repo b) in
        let integrations := getRepoIntegrations cookie in
        let integrations :=
          match integrations !! repo with
          | None => <[repo := empty_entry]> integrations
          | Some _ => integrations
          end in
        let integrations :=
          match post_vercel b with
          | Undefined => integrations
          | Null => alter (set_vercel None) repo integrations
          | Value v => alter (set_vercel (Some v)) repo integrations
          end in
        let integrations :=
          match post_supabase b with
          | Undefined => integrations
          | Null => alter (set_supabase None) repo integrations
          | Value s => alter (set_supabase (Some s)) repo integrations
          end in
        let integrations :=
          if Nat.eqb (Object_keys_length
                        (default empty_entry (integrations !! repo))) 0
          then delete repo integrations
          else integrations in
        setRepoIntegrations
          (json (PostOk (default empty_entry (integrations !! repo))))
          integrations
  end.

Definition parse_service (s : string) : option Service :=
  if decide (s = "vercel") then Some svc_vercel
  else if decide (s = "supabase") then Some svc_supabase
  else None.

Definition delete_service (k : Service) (e : RepoIntegration) : RepoIntegration :=
  match k with
  | svc_vercel => set_vercel None e
  | svc_supabase => set_supabase None e
  end.

(** DELETE *)
Definition DELETE (cookie : option string) (body : option DeleteBody) : Response :=
  match body with
  | None => bad_request "Invalid request body"
  | Some b =>
      if falsy (del_repo b) || falsy (del_service b) then
        bad_request "repo and service are required"
      else
        let repo := default "" (del_repo b) in
        match parse_service (default "" (del_service b)) with
        | None => bad_request msg_service
        | Some serviceKey =>
            let integrations := getRepoIntegrations cookie in
            let integrations :=
              match integrations !! repo with
              | Some _ =>
                  let integrations :=
                    alter (delete_service serviceKey) repo integrations in
                  if Nat.eqb (Object_keys_length
                                (default empty_entry (integrations !! repo))) 0
                  then delete repo integrations
                  else integrations
              | None => integrations
              end in
            setRepoIntegrations (json DeleteOk) integrations
        end
  end.

(** What the browser holds after a handler run: the object the response
    sets, or what was read when the response sets no cookie. *)
Definition persisted (cookie : option string) (r : Response) : RepoIntegrations :=
  match set_cookie r with
  | Some m => m
  | None => getRepoIntegrations cookie
  end.

(** A run of one of the two handlers that write the store. *)
Inductive Call :=
| CallPOST (body : option PostBody)
| CallDELETE (body : option DeleteBody).

Definition run_call (cookie : option string) (c : Call) : Response :=
  match c with
  | CallPOST body => POST cookie body
  | CallDELETE body => DELETE cookie body
  end.

End Route.

(** The store after a handler run on a request whose cookie holds the
    store [m]: the cookie text is not empty and [JSON.parse] gives [m]
    back, as it does for a text [setRepoIntegrations] wrote. *)
Definition store_after_call (m : RepoIntegrations) (c : Call) : RepoIntegrations :=
  let parse := fun _ : string => Some m in
  let cookie := Some "{...}" in
  persisted parse cookie (run_call parse cookie c).

(** The repo a call names, when its body is read and names one. *)
Definition call_repo (c : Call) : option string :=
  match c with
  | CallPOST (Some b) => post_repo b
  | CallDELETE (Some b) => del_repo b
  | _ => None
  end.

(** What a body property does to a service of an entry: absent keeps
    it, [null] removes it, a value replaces it. *)
Definition merge_field {A : Type} (f : Field A) (old : option A) : option A :=
  match f with
  | Undefined => old
  | Null => None
  | Value a => Some a
  end.

Definition merge_entry (b : PostBody) (e : RepoIntegration) : RepoIntegration :=
  {| vercel := merge_field (post_vercel b) (vercel e);
     supabase := merge_field (post_supabase b) (supabase e) |}.

(** An entry as the store keeps it: an empty one is not kept. *)
Definition kept (e : RepoIntegration) : option RepoIntegration :=
  if Nat.eqb (Object_keys_length e) 0 then None else Some e.

Definition service_name (k : Service) : string :=
  match k with
  | svc_vercel => "vercel"
  | svc_supabase => "supabase"
  end.

(** The bodies the two handlers accept. *)
Definition accepted (c : Call) : bool :=
  match c with
  | CallPOST (Some b) => negb (falsy (post_repo b))
  | CallDELETE (Some b) =>
      negb (falsy (del_repo b)) && negb (falsy (del_service b))
      && bool_decide (del_service b = Some "vercel"
                      \/ del_service b = Some "supabase")
  | _ => false
  end.

End RepoIntegrationsRoute.

(** ** The repo-integrations route on the values the runtime hands it

    The declared types of the route are erased when it runs: [JSON.parse]
    returns whatever value the cookie text holds, an entry may carry any
    keys, and [integrations[repo]] follows the prototype chain when the
    object has no own property of that name. This module models the three
    handlers on these values. *)

Module RepoIntegrationsJs.

(** A JSON value: a number is kept as a fraction, an object as the finite
    map of its own properties. *)
#[warnings="-register-all"]
Inductive JSON :=
| JNull
| JBool (b : bool)
| JNum (num : Z) (den : positive)
| JStr (s : string)
| JArr (xs : list JSON)
| JObj (m : gmap string JSON).

(** [ToBoolean] *)
Definition truthy (j : JSON) : bool :=
  match j with
  | JNull => false
  | JBool b => b
  | JNum num _ => negb (num =? 0)%Z
  | JStr s => negb (bool_decide (s = ""))
  | JArr _ | JObj _ => true
  end.

(** What a name that is not an own property resolves to on the prototype
    chain of a plain object, at the time of the request: nothing
    ([undefined]), a function (the built-in members of [Object.prototype]:
    [constructor], [toString], ...), or a value, kept as [JSON.stringify]
    shows it ([Object.prototype] itself for [__proto__], or a value an
    earlier request has written there). *)
Inductive Inherited :=
| inh_none
| inh_function
| inh_value (j : JSON).

Abbreviation Runtime := (string -> Inherited).

(** The value [integrations[repo]] when it is truthy, with what the
    handlers can do to it. An own array counts the properties added to it
    during the run: [Object.keys] lists them, [JSON.stringify] does not. *)
Inductive Target :=
| own_object (em : gmap string JSON)
| own_array (xs : list JSON) (added : nat)
| own_primitive (p : JSON)          (* a non-zero number, a non-empty string, true *)
| inherited_value (j : JSON)
| inherited_function.

(** [integrations[repo]], [None] when the value is falsy. *)
Definition target (rt : Runtime) (m : gmap string JSON) (key : string)
    : option Target :=
  match m !! key with
  | Some j =>
      if truthy j then
        Some match j with
             | JObj em => own_object em
             | JArr xs => own_array xs 0
             | _ => own_primitive j
             end
      else None
  | None =>
      match rt key with
      | inh_none => None
      | inh_function => Some inherited_function
      | inh_value j => if truthy j then Some (inherited_value j) else None
      end
  end.

(** [integrations[repo] || {}] as the response shows it: a function is
    dropped by [JSON.stringify], so the property is missing ([None]). *)
Definition shown (rt : Runtime) (m : gmap string JSON) (key : string)
    : option JSON :=
  match target rt m key with
  | None => Some (JObj ∅)
  | Some (own_object em) => Some (JObj em)
  | Some (own_array xs _) => Some (JArr xs)
  | Some (own_primitive p) => Some p
  | Some (inherited_value j) => Some j
  | Some inherited_function => None
  end.

(** [target[service] = v]; [None] when it throws: the module is in strict
    mode, where a property cannot be set on a primitive. *)
Definition assign (service : string) (v : JSON) (t : Target) : option Target :=
  match t with
  | own_object em => Some (own_object (<[service := v]> em))
  | own_array xs added => Some (own_array xs (S added))
  | own_primitive _ => None
  | inherited_value (JObj em) => Some (inherited_value (JObj (<[service := v]> em)))
  | inherited_value (JArr xs) => Some (inherited_value (JArr xs))
  | inherited_value _ => None
  | inherited_function => Some inherited_function
  end.

(** [delete target[service]], which never throws. *)
Definition remove (service : string) (t : Target) : Target :=
  match t with
  | own_object em => own_object (delete service em)
  | inherited_value (JObj em) => inherited_value (JObj (delete service em))
  | _ => t
  end.

(** One of the two update blocks of POST, for a body property that is
    absent ([None]), [null], or a value. *)
Definition update (service : string) (f : option JSON) (t : Target)
    : option Target :=
  match f with
  | None => Some t
  | Some JNull => Some (remove service t)
  | Some v => assign service v t
  end.

(** The clean-up step, [if (Object.keys(integrations[repo]).length === 0)
    delete integrations[repo]], and the object left. A number or a boolean
    has no keys, a non-empty string has its indices; deleting a name that
    is not an own property does nothing. *)
Definition settle (key : string) (t : Target) (m : gmap string JSON)
    : gmap string JSON :=
  match t with
  | own_object em =>
      if Nat.eqb (size em) 0 then delete key m else <[key := JObj em]> m
  | own_array xs added =>
      if Nat.eqb (length xs + added) 0 then delete key m else m
  | own_primitive (JStr _) => m
  | own_primitive _ => delete key m
  | inherited_value _ | inherited_function => m
  end.

(** [integrations[repo] || {}] in the response of POST, read after the
    clean-up. *)
Definition answered (rt : Runtime) (key : string) (t : Target)
    (m : gmap string JSON) : option JSON :=
  match t with
  | inherited_value j => Some j
  | inherited_function => None
  | _ => shown rt m key
  end.

(** The destructured body of POST. [post_repo] is the property key of
    [repo] when [repo] is truthy and [None] when [!repo] holds; a service
    is [None] when the property is [undefined]. *)
Record PostBody := {
  post_repo : option string;
  post_vercel : option JSON;
  post_supabase : option JSON;
}.

Record DeleteBody := {
  del_repo : option string;
  del_service : option JSON;
}.

Inductive Payload :=
| ErrorBody (error : string)
| GetOne (integrations : option JSON)
| GetAll (integrations : JSON)
| PostOk (integrations : option JSON)
| DeleteOk.

Record Response := {
  status : nat;
  payload : Payload;
  set_cookie : option JSON;
}.

(** What a handler run comes to: a response; an exception that leaves the
    handler ([Uncaught]); or, when the cookie holds an array, a string, a
    number or a boolean and the handler reads a property of it, a run
    this model does not follow ([Exotic]): indices, [length] and the
    members of the wrapper prototypes are not modelled, and nothing is
    stated of such a run. *)
Inductive Outcome :=
| Answer (r : Response)
| Uncaught
| Exotic.

Definition json (p : Payload) : Response :=
  {| status := 200; payload := p; set_cookie := None |}.

Definition bad_request (msg : string) : Response :=
  {| status := 400; payload := ErrorBody msg; set_cookie := None |}.

Definition setRepoIntegrations (r : Response) (integrations : JSON) : Response :=
  {| status := status r; payload := payload r; set_cookie := Some integrations |}.

(** [service !== 'vercel' && service !== 'supabase'], negated. *)
Definition service_key (service : JSON) : option string :=
  match service with
  | JStr s =>
      if decide (s = "vercel") then Some "vercel"
      else if decide (s = "supabase") then Some "supabase"
      else None
  | _ => None
  end.

Section Route.

Variable rt : Runtime.

(** [JSON.parse] on the cookie text; [None] when it throws. *)
Variable JSON_parse : string -> option JSON.

Definition getRepoIntegrations (cookie : option string) : JSON :=
  match cookie with
  | None => JObj ∅
  | Some text =>
      if decide (text = "") then JObj ∅
      else match JSON_parse text with
           | Some j => j
           | None => JObj ∅
           end
  end.

(** GET: [repo] is the query parameter, [None] when missing. For a store
    that is [null], [integrations[repo]] throws, outside any [try]. *)
Definition GET (cookie : option string) (repo : option string) : Outcome :=
  let integrations := getRepoIntegrations cookie in
  match repo with
  | Some key =>
      if decide (key = "") then Answer (json (GetAll integrations))
      else
        match integrations with
        | JNull => Uncaught
        | JObj m => Answer (json (GetOne (shown rt m key)))
        | _ => Exotic
        end
  | None => Answer (json (GetAll integrations))
  end.

(** POST: [body] is [None] when [request.json()] throws or gives [null],
    which cannot be destructured. Every exception is caught and answered
    with 400. *)
Definition POST (cookie : option string) (body : option PostBody) : Outcome :=
  match body with
  | None => Answer (bad_request "Invalid request body")
  | Some b =>
      match post_repo b with
      | None => Answer (bad_request "repo is required")
      | Some key =>
          match getRepoIntegrations cookie with
          | JNull => Answer (bad_request "Invalid request body")
          | JObj m =>
              let '(t, m) :=
                match target rt m key with
                | Some t => (t, m)
                | None => (own_object ∅, <[key := JObj ∅]> m)
                end in
              match update "vercel" (post_vercel b) t with
              | None => Answer (bad_request "Invalid request body")
              | Some t =>
                  match update "supabase" (post_supabase b) t with
                  | None => Answer (bad_request "Invalid request body")
                  | Some t =>
                      let m := settle key t m in
                      Answer (setRepoIntegrations
                                (json (PostOk (answered rt key t m))) (JObj m))
                  end
              end
          | _ => Exotic
          end
      end
  end.

(** DELETE *)
Definition DELETE (cookie : option string) (body : option DeleteBody) : Outcome :=
  match body with
  | None => Answer (bad_request "Invalid request body")
  | Some b =>
      match del_repo b, del_service b with
      | Some key, Some service =>
          if negb (truthy service) then
            Answer (bad_request "repo and service are required")
          else
            match service_key service with
            | None => Answer (bad_request RepoIntegrationsRoute.msg_service)
            | Some serviceKey =>
                match getRepoIntegrations cookie with
                | JNull => Answer (bad_request "Invalid request body")
                | JObj m =>
                    let m :=
                      match target rt m key with
                      | Some t => settle key (remove serviceKey t) m
                      | None => m
                      end in
                    Answer (setRepoIntegrations (json DeleteOk) (JObj m))
                | _ => Exotic
                end
            end
      | _, _ => Answer (bad_request "repo and service are required")
      end
  end.

(** What the browser holds after a handler run: the value the response
    sets, or what was read when no cookie is set; unknown for a run that
    is not modelled. *)
Definition persisted (cookie : option string) (o : Outcome) : option JSON :=
  match o with
  | Answer r =>
      Some match set_cookie r with
           | Some j => j
           | None => getRepoIntegrations cookie
           end
  | Uncaught => Some (getRepoIntegrations cookie)
  | Exotic => None
  end.

Inductive Call :=
| CallPOST (body : option PostBody)
| CallDELETE (body : option DeleteBody).

Definition run_call (cookie : option string) (c : Call) : Outcome :=
  match c with
  | CallPOST body => POST cookie body
  | CallDELETE body => DELETE cookie body
  end.

End Route.

(** A handler run on a request whose cookie holds the value [store]: the
    cookie text is not empty and [JSON.parse] gives [store] back. *)
Definition on_store (rt : Runtime) (store : JSON) (c : Call) : Outcome :=
  run_call rt (fun _ : string => Some store) (Some "{...}") c.

Definition store_after_call (rt : Runtime) (store : JSON) (c : Call)
    : option JSON :=
  persisted (fun _ : string => Some store) (Some "{...}") (on_store rt store c).


(** The property key a call names, when its body is read and names one. *)
Definition call_key (c : Call) : option string :=
  match c with
  | CallPOST (Some b) => post_repo b
  | CallDELETE (Some b) => del_repo b
  | _ => None
  end.

(** The bodies the two handlers accept. *)
Definition accepted (c : Call) : bool :=
  match c with
  | CallPOST (Some b) => bool_decide (is_Some (post_repo b))
  | CallDELETE (Some b) =>
      bool_decide (is_Some (del_repo b))
      && match del_service b with
         | Some service => bool_decide (is_Some (service_key service))
         | None => false
         end
  | _ => false
  end.




(** What a body property does to a key of an entry. *)
Definition merge (service : string) (f : option JSON) (em : gmap string JSON)
    : gmap string JSON :=
  match f with
  | None => em
  | Some JNull => delete service em
  | Some v => <[service := v]> em
  end.




(** The three states of the cookie that give no value: absent, empty, or
    text that [JSON.parse] rejects. *)
Definition unreadable (JSON_parse : string -> option JSON)
    (cookie : option string) : Prop :=
  cookie = None \/ cookie = Some ""
  \/ exists text, cookie = Some text /\ JSON_parse text = None.

End RepoIntegrationsJs.

(** ** The declared type inside the run-time values

    A store of type [RepoIntegrations], a body and a response of the
    typed handlers, as the values they are at run time. *)

Module DeclaredType.
Import RepoIntegrationsJs.

Definition of_vercel (v : RepoIntegrationsRoute.VercelLink) : JSON :=
  JObj {[ "projectId" := JStr (RepoIntegrationsRoute.v_projectId v);
          "projectName" := JStr (RepoIntegrationsRoute.v_projectName v) ]}.

Definition of_supabase (s : RepoIntegrationsRoute.SupabaseLink) : JSON :=
  JObj {[ "projectRef" := JStr (RepoIntegrationsRoute.s_projectRef s);
          "projectName" := JStr (RepoIntegrationsRoute.s_projectName s) ]}.

Definition of_entry (e : RepoIntegrationsRoute.RepoIntegration)
    : gmap string JSON :=
  let em :=
    match RepoIntegrationsRoute.vercel e with
    | Some v => {[ "vercel" := of_vercel v ]}
    | None => ∅
    end in
  match RepoIntegrationsRoute.supabase e with
  | Some s => <["supabase" := of_supabase s]> em
  | None => em
  end.

Definition of_store (m : gmap string RepoIntegrationsRoute.RepoIntegration)
    : gmap string JSON :=
  (fun e => JObj (of_entry e)) <$> m.

Definition of_field {A : Type} (f : A -> JSON)
    (x : RepoIntegrationsRoute.Field A) : option JSON :=
  match x with
  | RepoIntegrationsRoute.Undefined => None
  | RepoIntegrationsRoute.Null => Some JNull
  | RepoIntegrationsRoute.Value a => Some (f a)
  end.

(** A repo string that is not falsy is its own property key. *)
Definition of_repo (repo : option string) : option string :=
  if RepoIntegrationsRoute.falsy repo then None else repo.

Definition of_call (c : RepoIntegrationsRoute.Call) : Call :=
  match c with
  | RepoIntegrationsRoute.CallPOST body =>
      CallPOST
        ((fun b =>
            {| post_repo := of_repo (RepoIntegrationsRoute.post_repo b);
               post_vercel := of_field of_vercel (RepoIntegrationsRoute.post_vercel b);
               post_supabase :=
                 of_field of_supabase (RepoIntegrationsRoute.post_supabase b) |})
         <$> body)
  | RepoIntegrationsRoute.CallDELETE body =>
      CallDELETE
        ((fun b =>
            {| del_repo := of_repo (RepoIntegrationsRoute.del_repo b);
               del_service := JStr <$> RepoIntegrationsRoute.del_service b |})
         <$> body)
  end.

Definition of_payload (p : RepoIntegrationsRoute.Payload) : Payload :=
  match p with
  | RepoIntegrationsRoute.ErrorBody msg => ErrorBody msg
  | RepoIntegrationsRoute.GetOne e => GetOne (Some (JObj (of_entry e)))
  | RepoIntegrationsRoute.GetAll m => GetAll (JObj (of_store m))
  | RepoIntegrationsRoute.PostOk e => PostOk (Some (JObj (of_entry e)))
  | RepoIntegrationsRoute.DeleteOk => DeleteOk
  end.

Definition of_response (r : RepoIntegrationsRoute.Response) : Response :=
  {| status := RepoIntegrationsRoute.status r;
     payload := of_payload (RepoIntegrationsRoute.payload r);
     set_cookie := (fun m => JObj (of_store m))
                   <$> RepoIntegrationsRoute.set_cookie r |}.

(** The typed handlers on a request whose cookie holds the store [m]. *)
Definition typed_on_store (m : gmap string RepoIntegrationsRoute.RepoIntegration)
    (c : RepoIntegrationsRoute.Call) : RepoIntegrationsRoute.Response :=
  RepoIntegrationsRoute.run_call (fun _ : string => Some m) (Some "{...}") c.

End DeclaredType.

(** ** The chat handler of the execution server

    [app.post('/api/chat', ...)] of [backend/server.ts]: read the session's
    history, spawn the agent, forward its standard output as [chunk]
    frames, and finish the stream from the [close] handler. *)

Module ChatServer.

Inductive Role := user | assistant.

Record Message := { role : Role; content : string }.

(** The three frames written to the response, [data: {...}]. *)
Inductive Event :=
| EvChunk (content : string)     (* type: 'chunk' *)
| EvDone (content : string)      (* type: 'done'  *)
| EvError (message : string).    (* type: 'error' *)

Definition is_terminal (e : Event) : bool :=
  match e with
  | EvChunk _ => false
  | EvDone _ | EvError _ => true
  end.

(** The response object [res]: the frames delivered so far and whether
    [end()] was called.  A write after [end()] delivers nothing. *)
Record Response := { written : list Event; ended : bool }.

Definition res_write (e : Event) (r : Response) : Response :=
  if ended r then r
  else {| written := written r ++ [e]; ended := false |}.

Definition res_end (r : Response) : Response :=
  {| written := written r; ended := true |}.

(** The options object of [spawn]; a property that is not given is
    [None]. *)
Record SpawnOptions := {
  env : list (string * string);   (* entries added to process.env *)
  timeout : option Z;
}.

Record ChildProcess := {
  command : string;
  args : list string;
  options : SpawnOptions;
  exited : bool;
}.

Definition spawn (command : string) (args : list string)
    (options : SpawnOptions) : ChildProcess :=
  {| command := command; args := args; options := options; exited := false |}.

Definition mark_exited (p : ChildProcess) : ChildProcess :=
  {| command := command p; args := args p; options := options p;
     exited := true |}.

(** The variables one request closes over. *)
Record Task := {
  sessionId : string;
  history : list Message;
  claude : ChildProcess;
  responseContent : string;
  res : Response;
}.

(** What is shared by all requests: the conversations table and the
    server's console. *)
Record World := {
  db : gmap string (list Message);
  console : list string;
}.

Record Run := { task : Task; world : World }.

(** What the child process emits. [close] carries the exit code, [None]
    when the process was ended by a signal. *)
Inductive ProcEvent :=
| stdout_data (chunk : string)
| stderr_data (data : string)
| close (code : option Z).

Definition msg_failed : string := "Claude process failed".

(** The options passed at the call site: [{ env: { ...process.env,
    NO_COLOR: '1' } }]. *)
Definition chat_spawn_options : SpawnOptions :=
  {| env := [("NO_COLOR", "1")]; timeout := None |}.

Definition on_stdout (text : string) (r : Run) : Run :=
  let t := task r in
  {| task := {| sessionId := sessionId t; history := history t;
                claude := claude t;
                responseContent := responseContent t +:+ text;
                res := res_write (EvChunk text) (res t) |};
     world := world r |}.

(** The line [console.error('Claude stderr:', data.toString())] prints. *)
Definition stderr_line (data : string) : string := "Claude stderr: " +:+ data.

Definition on_stderr (data : string) (r : Run) : Run :=
  {| task := task r;
     world := {| db := db (world r);
                 console := console (world r) ++ [stderr_line data] |} |}.

Definition on_close (code : option Z) (r : Run) : Run :=
  let t := task r in
  match code with
  | Some 0%Z =>
      let history' :=
        history t ++ [{| role := assistant; content := responseContent t |}] in
      {| task := {| sessionId := sessionId t; history := history';
                    claude := mark_exited (claude t);
                    responseContent := responseContent t;
                    res := res_end (res_write (EvDone (responseContent t)) (res t)) |};
         world := {| db := <[sessionId t := history']> (db (world r));
                     console := console (world r) |} |}
  | _ =>
      {| task := {| sessionId := sessionId t; history := history t;
                    claude := mark_exited (claude t);
                    responseContent := responseContent t;
                    res := res_end (res_write (EvError msg_failed) (res t)) |};
         world := world r |}
  end.

Definition on_event (ev : ProcEvent) (r : Run) : Run :=
  match ev with
  | stdout_data chunk => on_stdout chunk r
  | stderr_data data => on_stderr data r
  | close code => on_close code r
  end.

(** The events of one child process, handled in arrival order. *)
Definition deliver (evs : list ProcEvent) (r : Run) : Run :=
  foldl (fun r ev => on_event ev r) r evs.

Section Handler.

(** [buildPromptWithHistory] is not part of the sources. *)
Variable buildPromptWithHistory : list Message -> string.

(** The synchronous part of the handler, up to the registration of the
    listeners. *)
Definition post_chat (w : World) (sessionId message : string) : Run :=
  let history := default [] (db w !! sessionId) in
  let history := history ++ [{| role := user; content := message |}] in
  let fullPrompt := buildPromptWithHistory history in
  let claude := spawn "claude" ["-p"; fullPrompt] chat_spawn_options in
  {| task := {| sessionId := sessionId; history := history;
                claude := claude; responseContent := "";
                res := {| written := []; ended := false |} |};
     world := w |}.

(** One request together with everything its child process emits. *)
Definition handle_chat (w : World) (sessionId message : string)
    (evs : list ProcEvent) : Run :=
  deliver evs (post_chat w sessionId message).

(** *** The server: many requests over one world *)

Record Server := { shared : World; tasks : list Task }.

(** A request, or an event of the child process spawned by the request
    number [pid]. *)
Inductive Input :=
| Request (sessionId message : string)
| Proc (pid : nat) (ev : ProcEvent).

Definition step (st : Server) (i : Input) : Server :=
  match i with
  | Request sessionId message =>
      let r := post_chat (shared st) sessionId message in
      {| shared := world r; tasks := tasks st ++ [task r] |}
  | Proc pid ev =>
      match tasks st !! pid with
      | Some t =>
          let r := on_event ev {| task := t; world := shared st |} in
          {| shared := world r; tasks := <[pid := task r]> (tasks st) |}
      | None => st
      end
  end.

Definition run (st : Server) (tr : list Input) : Server := foldl step st tr.

Definition boot : Server :=
  {| shared := {| db := ∅; console := [] |}; tasks := [] |}.

End Handler.

(** *** Observations *)

Definition live (t : Task) : bool := negb (exited (claude t)).

(** Child processes spawned and not yet closed. *)
Definition outstanding (st : Server) : nat :=
  length (List.filter live (tasks st)).

(** The same, for one session. *)
Definition in_flight (sid : string) (st : Server) : nat :=
  length (List.filter
            (fun t => live t && bool_decide (sessionId t = sid)) (tasks st)).

Definition proc_live (st : Server) (pid : nat) : bool :=
  match tasks st !! pid with
  | Some t => live t
  | None => false
  end.

Definition is_request (i : Input) : bool :=
  match i with Request _ _ => true | Proc _ _ => false end.

Definition is_close (i : Input) : bool :=
  match i with Proc _ (close _) => true | _ => false end.

Definition requests (tr : list Input) : nat := length (List.filter is_request tr).
Definition closes (tr : list Input) : nat := length (List.filter is_close tr).

(** Traces the runtime can produce: a child process emits events only
    between its spawn and its [close]. *)
Fixpoint well_formed (bp : list Message -> string) (st : Server)
    (tr : list Input) : bool :=
  match tr with
  | [] => true
  | i :: tr' =>
      match i with
      | Request _ _ => true
      | Proc pid _ => proc_live st pid
      end && well_formed bp (step bp st i) tr'
  end.

(** The events of the process number [pid] in a trace. *)
Fixpoint events_for (pid : nat) (tr : list Input) : list ProcEvent :=
  match tr with
  | [] => []
  | Proc pid' ev :: tr' =>
      if Nat.eqb pid' pid then ev :: events_for pid tr' else events_for pid tr'
  | Request _ _ :: tr' => events_for pid tr'
  end.

Fixpoint stdout_texts (evs : list ProcEvent) : list string :=
  match evs with
  | [] => []
  | stdout_data chunk :: evs' => chunk :: stdout_texts evs'
  | _ :: evs' => stdout_texts evs'
  end.

Fixpoint stderr_texts (evs : list ProcEvent) : list string :=
  match evs with
  | [] => []
  | stderr_data data :: evs' => data :: stderr_texts evs'
  | _ :: evs' => stderr_texts evs'
  end.

Definition is_stderr (ev : ProcEvent) : bool :=
  match ev with stderr_data _ => true | _ => false end.

(** The trace with the diagnostic output erased. *)
Definition without_stderr (evs : list ProcEvent) : list ProcEvent :=
  List.filter (fun ev => negb (is_stderr ev)) evs.

(** The exit code of the first [close], if the process closed. *)
Fixpoint first_close (evs : list ProcEvent) : option (option Z) :=
  match evs with
  | [] => None
  | close code :: _ => Some code
  | _ :: evs' => first_close evs'
  end.

(** The events before the first [close]. *)
Fixpoint before_close (evs : list ProcEvent) : list ProcEvent :=
  match evs with
  | [] => []
  | close _ :: _ => []
  | ev :: evs' => ev :: before_close evs'
  end.

Definition join (l : list string) : string := foldr String.append "" l.

Fixpoint chunk_contents (es : list Event) : list string :=
  match es with
  | [] => []
  | EvChunk c :: es' => c :: chunk_contents es'
  | _ :: es' => chunk_contents es'
  end.

Definition error_messages (es : list Event) : list string :=
  omap (fun e => match e with EvError m => Some m | _ => None end) es.

(** The terminal frame for an exit code, given the whole output. *)
Definition terminal (code : option Z) (output : string) : Event :=
  match code with
  | Some 0%Z => EvDone output
  | _ => EvError msg_failed
  end.

(** *** The API-key middleware in front of the handler *)

(** A request as the middleware sees it: the [x-api-key] header, [None]
    when it was not sent, and the body of the chat request. *)
Record HttpRequest := {
  x_api_key : option string;
  body_sessionId : string;
  body_message : string;
}.

Inductive Reply :=
| Unauthorized             (* 401 { error: 'Unauthorized' } *)
| Streaming (pid : nat).   (* the event stream of the task spawned *)

(** [apiKey !== process.env.BACKEND_API_KEY], negated: the two are the
    same string, or both are undefined. *)
Definition authorized (BACKEND_API_KEY apiKey : option string) : bool :=
  bool_decide (apiKey = BACKEND_API_KEY).

(** The middleware followed by the handler. *)
Definition serve (bp : list Message -> string) (BACKEND_API_KEY : option string)
    (st : Server) (req : HttpRequest) : Server * Reply :=
  if negb (authorized BACKEND_API_KEY (x_api_key req)) then (st, Unauthorized)
  else (step bp st (Request (body_sessionId req) (body_message req)),
        Streaming (length (tasks st))).

End ChatServer.

(** ** The workspace page: submitting a message and committing *)

Module Workspace.
Import Js.

Inductive Role := user | assistant.

Record Message := { role : Role; content : str }.

Record GitStatus := {
  modified : list str;
  added : list str;
  deleted : list str;
  untracked : list str;
}.

(** The state cells of [WorkspacePage] the two handlers read or write. *)
Record Page := {
  repoFullName : str;
  sessionId : str;
  messages : list Message;
  input : str;
  loading : bool;
  gitStatus : option GitStatus;
  commitMessage : str;
  committing : bool;
}.

(** The body posted to [/api/workspace/chat]. *)
Record ChatRequest := {
  chat_message : str;
  chat_repoFullName : str;
  chat_sessionId : str;
}.

(** [handleSubmit] up to the [fetch]: the new state and the request, if
    one is sent. *)
Definition handleSubmit_start (p : Page) : Page * option ChatRequest :=
  if falsy (trim (input p)) || loading p then (p, None)
  else
    let userMessage := trim (input p) in
    ({| repoFullName := repoFullName p; sessionId := sessionId p;
        messages := messages p ++ [{| role := user; content := userMessage |}];
        input := [];
        loading := true;
        gitStatus := gitStatus p;
        commitMessage := commitMessage p; committing := committing p |},
     Some {| chat_message := userMessage;
             chat_repoFullName := repoFullName p;
             chat_sessionId := sessionId p |}).

(** The [finally] block of [handleSubmit]. *)
Definition handleSubmit_finally (p : Page) : Page :=
  {| repoFullName := repoFullName p; sessionId := sessionId p;
     messages := messages p; input := input p;
     loading := false;
     gitStatus := gitStatus p;
     commitMessage := commitMessage p; committing := committing p |}.

(** The body posted to [/api/workspace/git/commit] and its answer. *)
Record CommitRequest := {
  commit_repoFullName : str;
  commit_message : str;
}.

Record CommitResponse := {
  success : bool;
  error : str;
}.

Definition set_committing (b : bool) (p : Page) : Page :=
  {| repoFullName := repoFullName p; sessionId := sessionId p;
     messages := messages p; input := input p; loading := loading p;
     gitStatus := gitStatus p;
     commitMessage := commitMessage p; committing := b |}.

Definition set_commitMessage (m : str) (p : Page) : Page :=
  {| repoFullName := repoFullName p; sessionId := sessionId p;
     messages := messages p; input := input p; loading := loading p;
     gitStatus := gitStatus p;
     commitMessage := m; committing := committing p |}.

Definition set_gitStatus (s : GitStatus) (p : Page) : Page :=
  {| repoFullName := repoFullName p; sessionId := sessionId p;
     messages := messages p; input := input p; loading := loading p;
     gitStatus := Some s;
     commitMessage := commitMessage p; committing := committing p |}.

(** [handleCommit] up to the [fetch]. *)
Definition handleCommit_start (p : Page) : Page * option CommitRequest :=
  if falsy (trim (commitMessage p)) then (p, None)
  else
    (set_committing true p,
     Some {| commit_repoFullName := repoFullName p;
             commit_message := commitMessage p |}).

Definition alert_committed : str := lit "Changes committed successfully!".
Definition alert_failed : str := lit "Failed to commit changes".
Definition alert_commit_failed (e : str) : str := lit "Commit failed: " ++ e.

(** [handleCommit] after the [fetch]: [None] when it threw.  The result is
    the new state and the alerts shown. *)
Definition handleCommit_settle (p : Page) (data : option CommitResponse)
    : Page * list str :=
  match data with
  | Some d =>
      if success d then
        (set_committing false (set_commitMessage [] p), [alert_committed])
      else
        (set_committing false p, [alert_commit_failed (error d)])
  | None => (set_committing false p, [alert_failed])
  end.

(** *** The commit operation behind the route *)

(** A checkout: the working-directory state a status query derives, and
    the commits made so far. *)
Record Checkout := {
  tree : GitStatus;
  log : list str;
}.

Inductive GitOperationFailed :=
| nothing_to_commit
| empty_message
| command_non_zero_exit.

Definition no_changes (s : GitStatus) : bool :=
  match modified s, added s, deleted s, untracked s with
  | [], [], [], [] => true
  | _, _, _, _ => false
  end.

Definition clean_tree : GitStatus :=
  {| modified := []; added := []; deleted := []; untracked := [] |}.

(** Modelled from the spec: the route [/api/workspace/git/commit] and the
    [commitAll] operation it serves are not among the sources; only their
    caller [handleCommit] is.  Following the spec, [commitAll] fails,
    leaving the checkout as it was, when there is nothing to commit, when
    the message is empty, or when the version-control command exits
    non-zero ([exit_code] is the status that command reports); on success
    every tracked change is committed and a status query reports the four
    sets empty. *)
Definition commitAll (c : Checkout) (message : str) (exit_code : Z)
    : Checkout * option GitOperationFailed :=
  if no_changes (tree c) then (c, Some nothing_to_commit)
  else if falsy message then (c, Some empty_message)
  else if negb (exit_code =? 0)%Z then (c, Some command_non_zero_exit)
  else ({| tree := clean_tree; log := message :: log c |}, None).

Definition describe (e : GitOperationFailed) : str :=
  match e with
  | nothing_to_commit => lit "nothing to commit"
  | empty_message => lit "empty commit message"
  | command_non_zero_exit => lit "commit command failed"
  end.

(** Modelled from the spec: the answer [{ success, error? }] of the commit
    route, which is not among the sources. *)
Definition commit_route (c : Checkout) (req : CommitRequest) (exit_code : Z)
    : Checkout * CommitResponse :=
  match commitAll c (commit_message req) exit_code with
  | (c', None) => (c', {| success := true; error := [] |})
  | (c', Some e) => (c', {| success := false; error := describe e |})
  end.

(** A click on the commit button, from the guard of [handleCommit] to its
    alerts, against a checkout. *)
Definition commit_click (p : Page) (c : Checkout) (exit_code : Z)
    : Page * Checkout * list str :=
  match handleCommit_start p with
  | (p1, None) => (p1, c, [])
  | (p1, Some req) =>
      let '(c', data) := commit_route c req exit_code in
      let '(p2, alerts) := handleCommit_settle p1 (Some data) in
      (if success data then set_gitStatus (tree c') p2 else p2, c', alerts)
  end.

(** *** Reading the event stream *)

(** The object a [data: ] line parses to: its [type] and [content]
    properties, [None] when absent. [content], when present, is a string,
    as the frames declare. *)
Record Data := {
  data_type : option str;
  data_content : option str;
}.

(** [data.type === 'chunk' && data.content] *)
Definition is_chunk_with_content (d : Data) : bool :=
  bool_decide (data_type d = Some (lit "chunk"))
  && negb (falsy (default [] (data_content d))).

Section Stream.

(** [JSON.parse] on the text after [data: ]; [None] when it throws or
    gives something that is not an object. *)
Variable JSON_parse : str -> option Data.

(** The body of [for (const line of lines)]. *)
Definition on_line (line : str) (assistantMessage : str) : str :=
  if startsWith (lit "data: ") line then
    match JSON_parse (drop 6 line) with
    | Some data =>
        if is_chunk_with_content data
        then assistantMessage ++ default [] (data_content data)
        else assistantMessage
    | None => assistantMessage
    end
  else assistantMessage.

(** One turn of the [while] loop on the text decoded from one read. *)
Definition on_read (chunk : str) (assistantMessage : str) : str :=
  foldl (fun acc line => on_line line acc) assistantMessage (split LF chunk).

(** The whole loop: [assistantMessage] when the reader is done. *)
Definition read_stream (reads : list str) : str :=
  foldl (fun acc chunk => on_read chunk acc) [] reads.

(** How the request of [handleSubmit] ends. *)
Inductive FetchOutcome :=
| fetch_failed                       (* fetch rejects, or there is no body *)
| stream_ended (reads : list str)    (* the reader reports done *)
| stream_failed (reads : list str).  (* a read rejects after these *)

Definition add_message (m : Message) (p : Page) : Page :=
  {| repoFullName := repoFullName p; sessionId := sessionId p;
     messages := messages p ++ [m]; input := input p; loading := loading p;
     gitStatus := gitStatus p;
     commitMessage := commitMessage p; committing := committing p |}.

Definition msg_fetch_error : str := lit "Error: Failed to get response".

(** [loadGitStatus]: [reply] is [data.status], [None] when the request
    failed or the answer carries no status. *)
Definition loadGitStatus (reply : option GitStatus) (p : Page) : Page :=
  match reply with
  | Some s => set_gitStatus s p
  | None => p
  end.

(** [handleSubmit] after the [fetch], on the state [handleSubmit_start]
    left, with the status refresh that follows a stream read to its
    end. *)
Definition handleSubmit_settle (p : Page) (o : FetchOutcome)
    (status_reply : option GitStatus) : Page :=
  match o with
  | fetch_failed =>
      handleSubmit_finally
        (add_message {| role := assistant; content := msg_fetch_error |} p)
  | stream_ended reads =>
      loadGitStatus status_reply
        (handleSubmit_finally
           (add_message {| role := assistant; content := read_stream reads |} p))
  | stream_failed reads =>
      handleSubmit_finally
        (add_message {| role := assistant; content := msg_fetch_error |}
           (add_message {| role := assistant; content := read_stream reads |} p))
  end.

End Stream.

(** What one line of a read adds to the text shown: the content of a
    chunk line, nothing for any other line. *)
Definition line_text (parse : str -> option Data) (line : str) : str :=
  if startsWith (lit "data: ") line then
    match parse (drop 6 line) with
    | Some d => if is_chunk_with_content d then default [] (data_content d) else []
    | None => []
    end
  else [].

(** *** What the page derives from its state *)

(** [disabled] of the send button and of the commit buttons. *)
Definition send_disabled (p : Page) : bool :=
  loading p || falsy (trim (input p)).

Definition commit_disabled (p : Page) : bool :=
  falsy (trim (commitMessage p)) || committing p.

(** [hasChanges] as the JSX tests it, and [changesCount]. *)
Definition hasChanges (p : Page) : bool :=
  match gitStatus p with
  | None => false
  | Some g =>
      (0 <? length (modified g))%nat || (0 <? length (added g))%nat
      || (0 <? length (deleted g))%nat || (0 <? length (untracked g))%nat
  end.

Definition length_or_0 (f : GitStatus -> list str) (p : Page) : nat :=
  match gitStatus p with
  | None => 0
  | Some g => length (f g)
  end.

Definition changesCount (p : Page) : nat :=
  length_or_0 modified p + length_or_0 added p
  + length_or_0 untracked p + length_or_0 deleted p.

End Workspace.

(** ** The file viewer: classifying a file by its name, decoding its content *)

Module FileViewer.
Import Js.

Definition image_extensions : list str :=
  map lit ["png"; "jpg"; "jpeg"; "gif"; "webp"; "svg"; "ico"; "bmp"].

Definition binaryExtensions : list str :=
  map lit ["pdf"; "doc"; "docx"; "xls"; "xlsx"; "ppt"; "pptx";
           "zip"; "tar"; "gz"; "rar"; "7z";
           "exe"; "dll"; "so"; "dylib";
           "mp3"; "mp4"; "wav"; "avi"; "mov"; "mkv";
           "ttf"; "otf"; "woff"; "woff2"; "eot"].

Definition markdown_extensions : list str :=
  map lit ["md"; "mdx"; "markdown"].

Section Viewer.

(** [String.prototype.toLowerCase], which the sources do not define. *)
Variable toLowerCase : str -> str.

(** [filename.split('.').pop()?.toLowerCase() || ''] *)
Definition ext (filename : str) : str :=
  match last (split DOT filename) with
  | Some piece => toLowerCase piece
  | None => []
  end.

Definition isImageFile (filename : str) : bool :=
  includes image_extensions (ext filename).

Definition isBinaryFile (filename : str) : bool :=
  includes binaryExtensions (ext filename).

Definition isMarkdownFile (filename : str) : bool :=
  includes markdown_extensions (ext filename).

(** [atob]; [None] when it throws. *)
Variable atob : str -> option str.

(** The decoding effect, run when [file] changes; the result is the state
    [decodedContent] after it. *)
Definition decode_effect (encoding filename content decodedContent : str) : str :=
  if bool_decide (encoding = lit "base64")
     && negb (isImageFile filename) && negb (isBinaryFile filename)
  then match atob content with
       | Some decoded => decoded
       | None => lit "Unable to decode file content"
       end
  else decodedContent.

End Viewer.

(** [file.path.split('/').slice(0, -1).join('/')] *)
Definition parentPath (path : str) : str :=
  join SLASH (removelast (split SLASH path)).

(** [decodedContent.split(newline)], whose length the header shows. *)
Definition lines (decodedContent : str) : list str := split LF decodedContent.

End FileViewer.

(** ** Sample data used by the examples *)

Module Samples.

(** A prompt builder: the contents of the turns, one after the other. *)
Definition build_prompt (h : list ChatServer.Message) : string :=
  ChatServer.join (map ChatServer.content h).

Definition empty_world : ChatServer.World :=
  {| ChatServer.db := ∅; ChatServer.console := [] |}.

Definition quoted (s : string) : string :=
  RepoIntegrationsRoute.dquote +:+ s +:+ RepoIntegrationsRoute.dquote.

(** The cookie text of a store with one repo linked to a Vercel project. *)
Definition cookie_text : string :=
  "{" +:+ quoted "acme/site" +:+ ":{" +:+ quoted "vercel" +:+ ":{"
  +:+ quoted "projectId" +:+ ":" +:+ quoted "prj_1" +:+ ","
  +:+ quoted "projectName" +:+ ":" +:+ quoted "site" +:+ "}}}".

Definition site_on_vercel : RepoIntegrationsRoute.VercelLink :=
  {| RepoIntegrationsRoute.v_projectId := "prj_1";
     RepoIntegrationsRoute.v_projectName := "site" |}.

Definition site_on_supabase : RepoIntegrationsRoute.SupabaseLink :=
  {| RepoIntegrationsRoute.s_projectRef := "ref_9";
     RepoIntegrationsRoute.s_projectName := "site-db" |}.

Definition store : gmap string RepoIntegrationsRoute.RepoIntegration :=
  {[ "acme/site" :=
       {| RepoIntegrationsRoute.vercel := Some site_on_vercel;
          RepoIntegrationsRoute.supabase := None |} ]}.

(** A parser for the two texts of the examples; any other text is
    rejected. *)
Definition parse (text : string)
    : option (gmap string RepoIntegrationsRoute.RepoIntegration) :=
  if decide (text = "{}") then Some ∅
  else if decide (text = cookie_text) then Some store
  else None.

Definition page (msg : Js.str) (busy : bool) : Workspace.Page :=
  {| Workspace.repoFullName := Js.lit "acme/site";
     Workspace.sessionId := Js.lit "workspace-1";
     Workspace.messages := [];
     Workspace.input := msg;
     Workspace.loading := busy;
     Workspace.gitStatus := None;
     Workspace.commitMessage := msg;
     Workspace.committing := false |}.

Definition dirty_checkout : Workspace.Checkout :=
  {| Workspace.tree :=
       {| Workspace.modified := []; Workspace.added := [];
          Workspace.deleted := []; Workspace.untracked := [Js.lit "NOTES.md"] |};
     Workspace.log := [] |}.

(** A [chunk] line and an [error] line as the server frames them, and a
    parser for the text after [data: ] of these two lines; any other text
    is rejected. *)
Definition chunk_line : Js.str :=
  Js.lit ("data: {" +:+ quoted "type" +:+ ":" +:+ quoted "chunk" +:+ ","
          +:+ quoted "content" +:+ ":" +:+ quoted "Hello" +:+ "}").

Definition error_line : Js.str :=
  Js.lit ("data: {" +:+ quoted "type" +:+ ":" +:+ quoted "error" +:+ ","
          +:+ quoted "message" +:+ ":" +:+ quoted "Claude process failed" +:+ "}").

Definition parse_frame (text : Js.str) : option Workspace.Data :=
  if decide (text = drop 6 chunk_line) then
    Some {| Workspace.data_type := Some (Js.lit "chunk");
            Workspace.data_content := Some (Js.lit "Hello") |}
  else if decide (text = drop 6 error_line) then
    Some {| Workspace.data_type := Some (Js.lit "error");
            Workspace.data_content := None |}
  else None.

(** Lower case for the letters A to Z; other code units are kept. *)
Definition ascii_lower (s : Js.str) : Js.str :=
  map (fun c => if Js.is_upper c then (c + 32)%N else c) s.

Definition changed_page : Workspace.Page :=
  {| Workspace.repoFullName := Js.lit "acme/site";
     Workspace.sessionId := Js.lit "workspace-1";
     Workspace.messages := [];
     Workspace.input := [];
     Workspace.loading := false;
     Workspace.gitStatus := Some (Workspace.tree dirty_checkout);
     Workspace.commitMessage := Js.lit "add notes";
     Workspace.committing := true |}.

(** A decoder for the one base64 text of the examples; any other text is
    rejected. *)
Definition atob_sample (text : Js.str) : option Js.str :=
  if decide (text = Js.lit "IyBIaQ==") then Some (Js.lit "# Hi") else None.

Definition keyed_request (key : option string) : ChatServer.HttpRequest :=
  {| ChatServer.x_api_key := key;
     ChatServer.body_sessionId := "s1";
     ChatServer.body_message := "hi" |}.

(** *** Values for the route at run time *)

Import RepoIntegrationsJs.

(** Node's [Object.prototype] before anything was written to it: its
    members are functions, and [__proto__] gives the prototype itself,
    which has no enumerable property. *)
Definition node_runtime (key : string) : Inherited :=
  if bool_decide (key ∈ ["constructor"; "toString"; "toLocaleString";
                         "valueOf"; "hasOwnProperty"; "isPrototypeOf";
                         "propertyIsEnumerable"; "__defineGetter__";
                         "__defineSetter__"; "__lookupGetter__";
                         "__lookupSetter__"])
  then inh_function
  else if bool_decide (key = "__proto__") then inh_value (JObj ∅)
  else inh_none.

Definition vercel_project : JSON :=
  JObj {[ "projectId" := JStr "prj_1"; "projectName" := JStr "site" ]}.

(** A store whose entry carries a key the route does not know. *)
Definition annotated_store : JSON :=
  JObj {[ "acme/site" :=
            JObj {[ "vercel" := vercel_project; "notes" := JStr "x" ]} ]}.

Definition linked_store : JSON :=
  JObj {[ "acme/site" := JObj {[ "vercel" := vercel_project ]} ]}.

(** A parser for the cookie texts of the examples. *)
Definition parse_value (text : string) : option JSON :=
  if decide (text = "{annotated}") then Some annotated_store
  else if decide (text = "{linked}") then Some linked_store
  else if decide (text = "null") then Some JNull
  else None.

End Samples.

(** * Properties *)

(** ** AddColumnModal *)

Section AddColumnModalFacts.
Import Js AddColumnModal.

Lemma matches_Never (s : str) : matches Never s = false.
Proof. induction s as [|c s IH]; simpl; auto. Qed.

Lemma matches_star_class (p : N -> bool) (s : str) :
  matches (Star (Class p)) s = forallb p s.
Proof.
  induction s as [|c s IH]; simpl; [reflexivity|].
  destruct (p c); simpl; [exact IH | apply matches_Never].
Qed.

Lemma class_head_tail (c : N) : class_head c = true -> class_tail c = true.
Proof.
  unfold class_head, class_tail.
  destruct (is_lower c), (is_upper c), (is_underscore c), (is_digit c);
    simpl; intros; congruence.
Qed.

(** The pattern of the source accepts exactly the valid identifiers. *)
Lemma identifier_re_valid (s : str) :
  test_anchored identifier_re s = valid_identifier s.
Proof.
  unfold test_anchored, identifier_re.
  destruct s as [|c s]; [reflexivity|].
  cbn [matches deriv Js.nullable valid_identifier forallb].
  change (is_letter c || is_underscore c) with (class_head c).
  change (is_letter c || is_digit c || is_underscore c) with (class_tail c).
  destruct (class_head c) eqn:Hh; cbn [seq alt andb].
  - rewrite (class_head_tail c Hh). cbn [andb].
    rewrite matches_star_class. reflexivity.
  - apply matches_Never.
Qed.

Example handleSubmit_trims :
  snd (handleSubmit {| name := lit "  created_at "; type := lit "text";
                       nullable := true; defaultValue := lit " now() ";
                       error := [] |})
  = Some {| col_name := lit "created_at"; col_type := lit "text";
            col_nullable := true; col_defaultValue := lit "now()" |}.
Proof. vm_compute. reflexivity. Qed.

Example handleSubmit_rejects_digit_head :
  handleSubmit {| name := lit "9lives"; type := lit "text";
                  nullable := true; defaultValue := []; error := [] |}
  = ({| name := lit "9lives"; type := lit "text"; nullable := true;
        defaultValue := []; error := msg_invalid |}, None).
Proof. vm_compute. reflexivity. Qed.

Example handleSubmit_rejects_blank :
  handleSubmit {| name := lit "   "; type := lit "text";
                  nullable := true; defaultValue := []; error := [] |}
  = ({| name := lit "   "; type := lit "text"; nullable := true;
        defaultValue := []; error := msg_required |}, None).
Proof. vm_compute. reflexivity. Qed.

(** C10. [handleSubmit] calls [onAdd] exactly when the trimmed column name
    is a valid identifier (non-empty, a letter or underscore first, then
    only letters, digits and underscores), and then the name it passes is
    the trimmed name; for every other input [onAdd] is not called and the
    error text is set. *)
Theorem handleSubmit_onAdd_iff_valid (st : State) :
  match handleSubmit st with
  | (_, Some col) =>
      valid_identifier (trim (name st)) = true
      /\ col_name col = trim (name st)
  | (st', None) =>
      valid_identifier (trim (name st)) = false
      /\ error st' <> []
  end.
Proof.
  unfold handleSubmit. cbn [name set_error].
  destruct (falsy (trim (name st))) eqn:Hf.
  - split; [|discriminate].
    destruct (trim (name st)); [reflexivity | discriminate].
  - rewrite identifier_re_valid.
    destruct (valid_identifier (trim (name st))); cbn [negb].
    + split; reflexivity.
    + split; [reflexivity | discriminate].
Qed.

End AddColumnModalFacts.

(** ** The repo-integrations route *)

Section RepoIntegrationsFacts.
Import RepoIntegrationsRoute.

Example delete_last_service_drops_entry :
  store_after_call
    (store_after_call ∅
       (CallPOST (Some {| post_repo := Some "acme/site";
                          post_vercel := Value Samples.site_on_vercel;
                          post_supabase := Undefined |})))
    (CallDELETE (Some {| del_repo := Some "acme/site";
                         del_service := Some "vercel" |}))
  = ∅.
Proof. vm_compute. reflexivity. Qed.

Example post_null_keeps_other_service :
  store_after_call
    (store_after_call ∅
       (CallPOST (Some {| post_repo := Some "acme/site";
                          post_vercel := Value Samples.site_on_vercel;
                          post_supabase := Value Samples.site_on_supabase |})))
    (CallPOST (Some {| post_repo := Some "acme/site";
                       post_vercel := Null;
                       post_supabase := Undefined |}))
  = {[ "acme/site" := {| vercel := None;
                         supabase := Some Samples.site_on_supabase |} ]}.
Proof. vm_compute. reflexivity. Qed.

Example post_without_repo_is_rejected :
  POST Samples.parse (Some Samples.cookie_text)
    (Some {| post_repo := None; post_vercel := Null; post_supabase := Undefined |})
  = bad_request "repo is required".
Proof. reflexivity. Qed.

End RepoIntegrationsFacts.

(** ** The repo-integrations route at run time *)

Section RepoIntegrationsJsFacts.
Import RepoIntegrationsJs.

Variable rt : Runtime.






Lemma settle_lookup_ne (key k : string) (t : Target) (m : gmap string JSON) :
  k <> key -> settle key t m !! k = m !! k.
Proof.
  intros Hne. unfold settle.
  destruct t as [em|xs n|p|j|]; try reflexivity.
  - destruct (Nat.eqb (size em) 0).
    + apply lookup_delete_ne. congruence.
    + apply lookup_insert_ne. congruence.
  - destruct (Nat.eqb (length xs + n) 0); [|reflexivity].
    apply lookup_delete_ne. congruence.
  - destruct p; try reflexivity; apply lookup_delete_ne; congruence.
Qed.

Lemma JObj_inj (a b : gmap string JSON) : JObj a = JObj b -> a = b.
Proof. intros [= ->]. reflexivity. Qed.


End RepoIntegrationsJsFacts.

Section RepoIntegrationsJsStore.
Import RepoIntegrationsJs.

Lemma getRepoIntegrations_holding (store : JSON) :
  getRepoIntegrations (fun _ : string => Some store) (Some "{...}") = store.
Proof. reflexivity. Qed.

Lemma update_own_object (service : string) (f : option JSON)
    (em : gmap string JSON) :
  update service f (own_object em) = Some (own_object (merge service f em)).
Proof. destruct f as [[]|]; reflexivity. Qed.

























End RepoIntegrationsJsStore.

Section RepoIntegrationsJsCookie.
Import RepoIntegrationsJs.

Variable rt : Runtime.
Variable JSON_parse : string -> option JSON.

Lemma getRepoIntegrations_unreadable (cookie : option string) :
  unreadable JSON_parse cookie ->
  getRepoIntegrations JSON_parse cookie = JObj ∅.
Proof.
  intros [->|[->|(text & -> & Hp)]]; try reflexivity.
  unfold getRepoIntegrations. destruct (decide (text = "")); [reflexivity|].
  rewrite Hp. reflexivity.
Qed.

(** Reading the cookie never fails: for a cookie that is absent, empty or
    not JSON the store is the empty object, and GET answers 200 without a
    fault. The answer carries the empty record unless the name is found on
    the prototype chain. *)
Lemma GET_unreadable (cookie : option string) (repo : option string) :
  unreadable JSON_parse cookie ->
  exists r, GET rt JSON_parse cookie repo = Answer r
            /\ status r = 200 /\ set_cookie r = None
            /\ payload r
               = match repo with
                 | None => GetAll (JObj ∅)
                 | Some key =>
                     if decide (key = "") then GetAll (JObj ∅)
                     else GetOne match rt key with
                                 | inh_none => Some (JObj ∅)
                                 | inh_function => None
                                 | inh_value j =>
                                     Some (if truthy j then j else JObj ∅)
                                 end
                 end.
Proof.
  intros Hc. unfold GET. rewrite (getRepoIntegrations_unreadable cookie Hc).
  destruct repo as [key|]; [|eexists; repeat split].
  destruct (decide (key = "")); [eexists; repeat split|].
  eexists. repeat split. cbn [payload json]. f_equal.
  unfold shown, target. rewrite lookup_empty.
  destruct (rt key) as [| |j]; try reflexivity.
  destruct (truthy j); reflexivity.
Qed.

End RepoIntegrationsJsCookie.

(** ** The chat handler *)

Section ChatServerFacts.
Import ChatServer.

Variable buildPromptWithHistory : list Message -> string.

Lemma string_app_cons (a : ascii) (s t : string) :
  String a s +:+ t = String a (s +:+ t).
Proof. reflexivity. Qed.

Lemma string_app_nil_r (s : string) : s +:+ "" = s.
Proof.
  induction s as [|a s IH]; [reflexivity|].
  rewrite string_app_cons, IH. reflexivity.
Qed.

Lemma string_app_assoc (s t u : string) : (s +:+ t) +:+ u = s +:+ (t +:+ u).
Proof.
  induction s as [|a s IH]; [reflexivity|].
  rewrite !string_app_cons, IH. reflexivity.
Qed.

Lemma chunk_contents_chunks (l : list string) (e : Event) :
  is_terminal e = true ->
  chunk_contents (map EvChunk l ++ [e]) = l.
Proof.
  intros He. induction l as [|x l IH]; cbn.
  - destruct e; [discriminate | reflexivity | reflexivity].
  - rewrite IH. reflexivity.
Qed.

Lemma deliver_cons (ev : ProcEvent) (evs : list ProcEvent) (r : Run) :
  deliver (ev :: evs) r = deliver evs (on_event ev r).
Proof. reflexivity. Qed.

Lemma deliver_app (evs1 evs2 : list ProcEvent) (r : Run) :
  deliver (evs1 ++ evs2) r = deliver evs2 (deliver evs1 r).
Proof. unfold deliver. apply foldl_app. Qed.

(** While the process has not closed, the handlers only accumulate. *)
Lemma deliver_open (evs : list ProcEvent) : forall r : Run,
  first_close evs = None ->
  ended (res (task r)) = false ->
  sessionId (task (deliver evs r)) = sessionId (task r)
  /\ history (task (deliver evs r)) = history (task r)
  /\ claude (task (deliver evs r)) = claude (task r)
  /\ responseContent (task (deliver evs r))
     = responseContent (task r) +:+ join (stdout_texts evs)
  /\ res (task (deliver evs r))
     = {| written := written (res (task r)) ++ map EvChunk (stdout_texts evs);
          ended := false |}
  /\ db (world (deliver evs r)) = db (world r)
  /\ console (world (deliver evs r))
     = console (world r) ++ map stderr_line (stderr_texts evs).
Proof.
  induction evs as [|ev evs IH]; intros r Hc He.
  - cbn. rewrite string_app_nil_r, !app_nil_r.
    destruct r as [[sid h cl rc [wr en]] w]; cbn in *. subst en.
    repeat split; reflexivity.
  - rewrite deliver_cons. destruct ev as [text|data|code]; [| |discriminate].
    + cbn in Hc.
      destruct (IH (on_event (stdout_data text) r) Hc) as (H1&H2&H3&H4&H5&H6&H7).
      { cbn. unfold res_write. rewrite He. reflexivity. }
      rewrite H1, H2, H3, H4, H5, H6, H7. cbn.
      unfold res_write. rewrite He. cbn.
      rewrite string_app_assoc, <- app_assoc. repeat split; reflexivity.
    + cbn in Hc.
      destruct (IH (on_event (stderr_data data) r) Hc) as (H1&H2&H3&H4&H5&H6&H7).
      { cbn. exact He. }
      rewrite H1, H2, H3, H4, H5, H6, H7. cbn.
      rewrite <- app_assoc. repeat split; reflexivity.
Qed.

(** Once [end()] was called the response does not change any more. *)
Lemma deliver_ended (evs : list ProcEvent) : forall r : Run,
  ended (res (task r)) = true ->
  res (task (deliver evs r)) = res (task r).
Proof.
  induction evs as [|ev evs IH]; intros r He; [reflexivity|].
  rewrite deliver_cons.
  assert (Hres : res (task (on_event ev r)) = res (task r)).
  { destruct r as [[sid h cl rc [wr en]] w]. cbn in He. subst en.
    destruct ev as [text|data|code]; cbn; try reflexivity.
    destruct code as [[| |]|]; reflexivity. }
  rewrite IH; rewrite Hres; auto.
Qed.

Lemma first_close_split (evs : list ProcEvent) (code : option Z) :
  first_close evs = Some code ->
  exists rest, evs = before_close evs ++ close code :: rest.
Proof.
  induction evs as [|ev evs IH]; [discriminate|].
  destruct ev as [text|data|c]; cbn; intros H.
  - destruct (IH H) as [rest Hr]. exists rest. congruence.
  - destruct (IH H) as [rest Hr]. exists rest. congruence.
  - injection H as ->. exists evs. reflexivity.
Qed.

Lemma first_close_before (evs : list ProcEvent) :
  first_close (before_close evs) = None.
Proof.
  induction evs as [|ev evs IH]; [reflexivity|].
  destruct ev; cbn; auto.
Qed.

Lemma res_on_close (code : option Z) (r : Run) :
  ended (res (task r)) = false ->
  res (task (on_close code r))
  = {| written := written (res (task r)) ++ [terminal code (responseContent (task r))];
       ended := true |}.
Proof.
  intros He. unfold on_close, terminal.
  destruct code as [[| |]|]; cbn; unfold res_write; rewrite He; reflexivity.
Qed.

(** The response of a request whose process emitted [pre], without a
    [close], and then closed with [code]. *)
Lemma res_closed (w : World) (sid msg : string) (pre rest : list ProcEvent)
    (code : option Z) :
  first_close pre = None ->
  res (task (handle_chat buildPromptWithHistory w sid msg
               (pre ++ close code :: rest)))
  = {| written := map EvChunk (stdout_texts pre)
                  ++ [terminal code (join (stdout_texts pre))];
       ended := true |}.
Proof.
  intros Hpre. unfold handle_chat.
  rewrite deliver_app, deliver_cons.
  destruct (deliver_open pre (post_chat buildPromptWithHistory w sid msg) Hpre)
    as (_&_&_&Hrc&Hres&_&_); [reflexivity|].
  rewrite deliver_ended.
  - cbn [on_event]. rewrite res_on_close by (rewrite Hres; reflexivity).
    rewrite Hres, Hrc. reflexivity.
  - cbn [on_event]. rewrite res_on_close by (rewrite Hres; reflexivity).
    reflexivity.
Qed.

(** C1, as the code has it. The frames written for a request are the
    [chunk] frames of the standard output, in order, followed, once the
    process has closed, by exactly one terminal frame ([done] for exit
    code 0, [error] otherwise); nothing the process or a listener does
    afterwards adds a frame, and the response is ended with the terminal
    frame. While the process has not closed only [chunk] frames are
    written and the response stays open: a task whose process never
    closes gets no terminal frame. *)
Theorem chat_stream_shape (w : World) (sid msg : string) (evs : list ProcEvent) :
  let r := res (task (handle_chat buildPromptWithHistory w sid msg evs)) in
  match first_close evs with
  | None =>
      written r = map EvChunk (stdout_texts evs) /\ ended r = false
  | Some code =>
      written r
      = map EvChunk (stdout_texts (before_close evs))
        ++ [terminal code (join (stdout_texts (before_close evs)))]
      /\ is_terminal (terminal code (join (stdout_texts (before_close evs)))) = true
      /\ ended r = true
  end.
Proof.
  cbv zeta. destruct (first_close evs) as [code|] eqn:Hc.
  - destruct (first_close_split evs code Hc) as [rest Hs].
    pose proof (res_closed w sid msg (before_close evs) rest code
                  (first_close_before evs)) as Hr.
    rewrite <- Hs in Hr. rewrite Hr.
    cbn [written ended]. repeat split.
    unfold terminal. destruct code as [[| |]|]; reflexivity.
  - destruct (deliver_open evs (post_chat buildPromptWithHistory w sid msg) Hc)
      as (_&_&_&_&Hres&_&_); [reflexivity|].
    unfold handle_chat. rewrite Hres. cbn. auto.
Qed.

(** The whole run of a request whose process closes with [code]. *)
Lemma run_closed (w : World) (sid msg : string) (pre : list ProcEvent)
    (code : option Z) :
  first_close pre = None ->
  handle_chat buildPromptWithHistory w sid msg (pre ++ [close code])
  = on_close code
      {| task := {| sessionId := sid;
                    history := default [] (db w !! sid)
                               ++ [{| role := user; content := msg |}];
                    claude := claude (task (post_chat buildPromptWithHistory w sid msg));
                    responseContent := join (stdout_texts pre);
                    res := {| written := map EvChunk (stdout_texts pre);
                              ended := false |} |};
         world := {| db := db w;
                     console := console w ++ map stderr_line (stderr_texts pre) |} |}.
Proof.
  intros Hpre. unfold handle_chat. rewrite deliver_app.
  change (deliver [close code] ?x) with (on_close code x).
  pose proof (deliver_open pre (post_chat buildPromptWithHistory w sid msg)
                Hpre eq_refl) as H.
  f_equal.
  destruct (deliver pre (post_chat buildPromptWithHistory w sid msg))
    as [[sid' h' cl' rc' res'] [db' con']].
  cbn in H. destruct H as (-> & -> & -> & -> & -> & -> & ->).
  reflexivity.
Qed.

Lemma error_messages_chunks (l : list string) :
  error_messages (map EvChunk l) = [].
Proof. induction l as [|x l IH]; [reflexivity | exact IH]. Qed.

Lemma error_messages_app (l k : list Event) :
  error_messages (l ++ k) = error_messages l ++ error_messages k.
Proof. unfold error_messages. apply omap_app. Qed.

(** What a listener does to the task and the table does not depend on the
    console. *)
Lemma on_event_task_db (ev : ProcEvent) (r r' : Run) :
  task r = task r' -> db (world r) = db (world r') ->
  task (on_event ev r) = task (on_event ev r')
  /\ db (world (on_event ev r)) = db (world (on_event ev r')).
Proof.
  destruct r as [t [d c]], r' as [t' [d' c']]. cbn. intros -> ->.
  destruct ev as [text|data|code]; cbn; auto.
  destruct code as [[| |]|]; cbn; auto.
Qed.

Lemma deliver_task_db (evs : list ProcEvent) : forall r r' : Run,
  task r = task r' -> db (world r) = db (world r') ->
  task (deliver evs r) = task (deliver evs r')
  /\ db (world (deliver evs r)) = db (world (deliver evs r')).
Proof.
  induction evs as [|ev evs IH]; intros r r' Ht Hd; [auto|].
  rewrite !deliver_cons.
  destruct (on_event_task_db ev r r' Ht Hd) as [Ht' Hd'].
  apply IH; assumption.
Qed.

(** Erasing the diagnostic output changes neither what the caller
    receives nor what is stored. *)
Lemma stderr_never_delivered (evs : list ProcEvent) : forall r : Run,
  task (deliver (without_stderr evs) r) = task (deliver evs r)
  /\ db (world (deliver (without_stderr evs) r)) = db (world (deliver evs r)).
Proof.
  induction evs as [|ev evs IH]; intros r; [auto|].
  destruct ev as [text|data|code]; cbn [without_stderr List.filter is_stderr negb];
    rewrite ?deliver_cons; try apply IH.
  fold (without_stderr evs).
  destruct (IH r) as [Ht Hd]. rewrite Ht, Hd.
  apply deliver_task_db; reflexivity.
Qed.

Example stream_of_a_successful_run :
  res (task (handle_chat buildPromptWithHistory Samples.empty_world "s1" "hi"
               [stdout_data "Hel"; stderr_data "warn"; stdout_data "lo";
                close (Some 0%Z); stdout_data "late"]))
  = {| written := [EvChunk "Hel"; EvChunk "lo"; EvDone "Hello"];
       ended := true |}.
Proof. reflexivity. Qed.

Example stream_of_a_failed_run :
  res (task (handle_chat buildPromptWithHistory Samples.empty_world "s1" "hi"
               [stdout_data "par"; stderr_data "ENOMEM"; close (Some 1%Z)]))
  = {| written := [EvChunk "par"; EvError "Claude process failed"];
       ended := true |}.
Proof. reflexivity. Qed.

(** C5. When the process exits with status 0, the [done] frame carries the
    in-order concatenation of the contents of the [chunk] frames written
    before it, and that text is appended to the session's history as the
    assistant turn and stored in the conversations table. *)
Theorem done_carries_whole_output (w : World) (sid msg : string)
    (pre : list ProcEvent) :
  first_close pre = None ->
  let r := handle_chat buildPromptWithHistory w sid msg (pre ++ [close (Some 0%Z)]) in
  let output := join (chunk_contents (written (res (task r)))) in
  written (res (task r)) = map EvChunk (stdout_texts pre) ++ [EvDone output]
  /\ history (task r)
     = (default [] (db w !! sid) ++ [{| role := user; content := msg |}])
       ++ [{| role := assistant; content := output |}]
  /\ db (world r) = <[sid := history (task r)]> (db w).
Proof.
  intros Hpre. cbv zeta. rewrite run_closed by assumption.
  cbn. rewrite (chunk_contents_chunks _ (EvDone _)) by reflexivity.
  repeat split; reflexivity.
Qed.

(** C6. When the process exits with any status other than 0, the caller
    receives the [chunk] frames followed by one [error] frame with the
    fixed text "Claude process failed"; the conversations table is left as
    it was; the diagnostic output goes to the console only, and erasing it
    from the run changes nothing of the response. *)
Theorem failure_is_generic_and_silent (w : World) (sid msg : string)
    (pre : list ProcEvent) (code : option Z) :
  first_close pre = None ->
  code <> Some 0%Z ->
  let r := handle_chat buildPromptWithHistory w sid msg (pre ++ [close code]) in
  written (res (task r)) = map EvChunk (stdout_texts pre) ++ [EvError msg_failed]
  /\ db (world r) = db w
  /\ console (world r) = console w ++ map stderr_line (stderr_texts pre)
  /\ res (task (handle_chat buildPromptWithHistory w sid msg
                  (without_stderr (pre ++ [close code]))))
     = res (task r).
Proof.
  intros Hpre Hcode. cbv zeta. split; [|split; [|split]].
  - rewrite run_closed by assumption.
    destruct code as [[| |]|]; first [reflexivity | congruence].
  - rewrite run_closed by assumption.
    destruct code as [[| |]|]; first [reflexivity | congruence].
  - rewrite run_closed by assumption.
    destruct code as [[| |]|]; first [reflexivity | congruence].
  - unfold handle_chat.
    destruct (stderr_never_delivered (pre ++ [close code])
                (post_chat buildPromptWithHistory w sid msg)) as [Ht _].
    rewrite Ht. reflexivity.
Qed.

(** C4, as the code has it. [spawn] is given no timeout and the handler
    sets no timer: while the process has not closed, the response stays
    open with [chunk] frames only, however long the run; and the only
    [error] text the handler ever writes is the generic one. *)
Theorem no_timeout_only_generic_error (w : World) (sid msg : string)
    (evs : list ProcEvent) :
  let r := handle_chat buildPromptWithHistory w sid msg evs in
  timeout (options (claude (task (post_chat buildPromptWithHistory w sid msg)))) = None
  /\ (first_close evs = None ->
      ended (res (task r)) = false
      /\ written (res (task r)) = map EvChunk (stdout_texts evs))
  /\ Forall (fun m => m = msg_failed) (error_messages (written (res (task r)))).
Proof.
  cbv zeta. split; [reflexivity|]. split.
  - intros Hc.
    destruct (deliver_open evs (post_chat buildPromptWithHistory w sid msg) Hc)
      as (_&_&_&_&Hres&_&_); [reflexivity|].
    unfold handle_chat. rewrite Hres. cbn. auto.
  - destruct (first_close evs) as [code|] eqn:Hc.
    + destruct (first_close_split evs code Hc) as [rest Hs].
      pose proof (res_closed w sid msg (before_close evs) rest code
                    (first_close_before evs)) as Hr.
      rewrite <- Hs in Hr. rewrite Hr. cbn [written].
      rewrite error_messages_app, error_messages_chunks.
      unfold terminal. destruct code as [[| |]|]; cbn; auto.
    + destruct (deliver_open evs (post_chat buildPromptWithHistory w sid msg) Hc)
        as (_&_&_&_&Hres&_&_); [reflexivity|].
      unfold handle_chat. rewrite Hres.
      unfold post_chat. cbn [written res task app].
      rewrite error_messages_chunks. constructor.
Qed.

(** *** Many requests *)

Lemma filter_length_insert {A : Type} (f : A -> bool) (l : list A) (i : nat)
    (x y : A) :
  l !! i = Some x ->
  length (List.filter f (<[i := y]> l)) + (if f x then 1 else 0)
  = length (List.filter f l) + (if f y then 1 else 0).
Proof.
  intros Hl.
  assert (Hi : i < length l) by (eapply lookup_lt_Some; eassumption).
  rewrite insert_take_drop by assumption.
  rewrite <- (take_drop_middle l i x Hl) at 3.
  rewrite !List.filter_app. cbn [List.filter].
  destruct (f x), (f y); rewrite !length_app; cbn [length]; lia.
Qed.

Lemma outstanding_request (st : Server) (sid msg : string) :
  outstanding (step buildPromptWithHistory st (Request sid msg))
  = S (outstanding st).
Proof.
  unfold outstanding. cbn [step tasks].
  rewrite List.filter_app, length_app. cbn. lia.
Qed.

Lemma in_flight_request (st : Server) (sid msg : string) :
  in_flight sid (step buildPromptWithHistory st (Request sid msg))
  = S (in_flight sid st).
Proof.
  unfold in_flight. cbn [step tasks].
  rewrite List.filter_app, length_app. cbn.
  rewrite bool_decide_eq_true_2 by reflexivity. cbn. lia.
Qed.

Lemma live_on_event (ev : ProcEvent) (t : Task) (w : World) :
  live (task (on_event ev {| task := t; world := w |}))
  = if is_close (Proc 0 ev) then false else live t.
Proof.
  destruct ev as [text|data|code]; cbn; try reflexivity.
  destruct code as [[| |]|]; reflexivity.
Qed.

(** An event of a running process: a [close] retires it, whatever the
    exit code; any other event leaves the count as it is. *)
Lemma outstanding_proc (st : Server) (pid : nat) (ev : ProcEvent) :
  proc_live st pid = true ->
  outstanding (step buildPromptWithHistory st (Proc pid ev))
  + (if is_close (Proc pid ev) then 1 else 0)
  = outstanding st.
Proof.
  unfold proc_live, outstanding. cbn [step].
  destruct (tasks st !! pid) as [t|] eqn:Hl; [|discriminate].
  intros Hlive. cbn [tasks].
  pose proof (filter_length_insert live (tasks st) pid t
                (task (on_event ev {| task := t; world := shared st |})) Hl) as H.
  rewrite Hlive, live_on_event in H.
  change (is_close (Proc pid ev)) with (is_close (Proc 0 ev)).
  destruct (is_close (Proc 0 ev)); rewrite ?Hlive in H; lia.
Qed.

Lemma requests_cons (i : Input) (tr : list Input) :
  requests (i :: tr) = (if is_request i then 1 else 0) + requests tr.
Proof. unfold requests. cbn. destruct (is_request i); reflexivity. Qed.

Lemma closes_cons (i : Input) (tr : list Input) :
  closes (i :: tr) = (if is_close i then 1 else 0) + closes tr.
Proof. unfold closes. cbn. destruct (is_close i); reflexivity. Qed.

Lemma outstanding_balance (tr : list Input) : forall st : Server,
  well_formed buildPromptWithHistory st tr = true ->
  outstanding (run buildPromptWithHistory st tr) + closes tr
  = outstanding st + requests tr.
Proof.
  induction tr as [|i tr IH]; intros st Hwf.
  - cbn. unfold requests, closes. cbn. lia.
  - cbn [well_formed] in Hwf. apply andb_true_iff in Hwf as [Hi Hwf].
    cbn [run foldl]. fold (run buildPromptWithHistory).
    change (foldl (step buildPromptWithHistory)
              (step buildPromptWithHistory st i) tr)
      with (run buildPromptWithHistory (step buildPromptWithHistory st i) tr).
    specialize (IH _ Hwf). rewrite requests_cons, closes_cons.
    destruct i as [sid msg|pid ev].
    + rewrite outstanding_request in IH. cbn [is_request is_close]. lia.
    + pose proof (outstanding_proc st pid ev Hi) as Hp.
      cbn [is_request]. lia.
Qed.

Lemma outstanding_replicate (n : nat) (sid msg : string) : forall st : Server,
  outstanding (run buildPromptWithHistory st (replicate n (Request sid msg)))
  = outstanding st + n.
Proof.
  induction n as [|n IH]; intros st; cbn [replicate].
  - cbn. lia.
  - change (run buildPromptWithHistory st (Request sid msg :: replicate n (Request sid msg)))
      with (run buildPromptWithHistory
              (step buildPromptWithHistory st (Request sid msg))
              (replicate n (Request sid msg))).
    rewrite IH, outstanding_request. lia.
Qed.

Lemma deliver_task_only (evs : list ProcEvent) : forall r r' : Run,
  task r = task r' -> task (deliver evs r) = task (deliver evs r').
Proof.
  induction evs as [|ev evs IH]; intros r r' Ht; [exact Ht|].
  rewrite !deliver_cons. apply IH.
  destruct r as [t w], r' as [t' w']. cbn in Ht. subst t'.
  destruct ev as [text|data|code]; cbn; try reflexivity.
  destruct code as [[| |]|]; reflexivity.
Qed.

(** In a run of the server every task sees its own events only: it ends
    as the handlers of its request leave it on those events, whatever
    the other requests do in between. *)
Lemma run_task_projection (tr : list Input) : forall (st : Server) (pid : nat)
    (t : Task) (w : World),
  tasks st !! pid = Some t ->
  tasks (run buildPromptWithHistory st tr) !! pid
  = Some (task (deliver (events_for pid tr) {| task := t; world := w |})).
Proof.
  induction tr as [|i tr IH]; intros st pid t w Hl; [exact Hl|].
  change (run buildPromptWithHistory st (i :: tr))
    with (run buildPromptWithHistory (step buildPromptWithHistory st i) tr).
  destruct i as [sid msg|pid' ev]; cbn [events_for].
  - apply IH. cbn [step tasks]. apply lookup_app_l_Some. exact Hl.
  - destruct (Nat.eqb_spec pid' pid) as [->|Hne].
    + cbn [step]. rewrite Hl. rewrite deliver_cons.
      rewrite (IH _ pid (task (on_event ev {| task := t; world := shared st |})) w).
      * f_equal. apply deliver_task_only.
        apply (deliver_task_only [ev]). reflexivity.
      * cbn [tasks]. apply list_lookup_insert_eq.
        eapply lookup_lt_Some; eassumption.
    + apply IH. cbn [step].
      destruct (tasks st !! pid') as [t'|]; [|exact Hl].
      cbn [tasks]. rewrite list_lookup_insert_ne by assumption. exact Hl.
Qed.

(** C3, as the code has it. There is no pool and no pool size: every
    request spawns its process at once, so [n] requests leave [n]
    processes outstanding, for every [n]. A process stops being
    outstanding when its [close] is handled, whatever the exit code, so on
    every trace of the runtime the processes outstanding are the requests
    made less the closes handled, and none is outstanding once there were
    as many closes as requests. *)
Theorem outstanding_accounting (tr : list Input) (n : nat) (sid msg : string) :
  outstanding (run buildPromptWithHistory (boot)
                 (replicate n (Request sid msg))) = n
  /\ (well_formed buildPromptWithHistory boot tr = true ->
      outstanding (run buildPromptWithHistory boot tr) + closes tr = requests tr
      /\ (closes tr = requests tr ->
          outstanding (run buildPromptWithHistory boot tr) = 0)).
Proof.
  split.
  - rewrite outstanding_replicate. reflexivity.
  - intros Hwf. pose proof (outstanding_balance tr boot Hwf) as H.
    change (outstanding boot) with 0 in H. split; [lia|]. intros Heq. lia.
Qed.

(** C2, as the code has it. The server keeps no busy flag: a request is
    always admitted, also for a session with a task in flight, and its
    process runs next to the others. The guard is in the page: while
    [loading] is set (or the input is blank) [handleSubmit] returns at
    once, sending nothing and changing nothing; otherwise it sends one
    request and sets [loading], which its [finally] block clears. *)
Theorem request_always_admitted (st : Server) (sid msg : string)
    (p : Workspace.Page) :
  in_flight sid (step buildPromptWithHistory st (Request sid msg))
  = S (in_flight sid st)
  /\ (exists t,
        tasks (step buildPromptWithHistory st (Request sid msg)) = tasks st ++ [t]
        /\ sessionId t = sid /\ live t = true
        /\ res t = {| written := []; ended := false |})
  /\ (Workspace.loading p = true \/ Js.falsy (Js.trim (Workspace.input p)) = true ->
      Workspace.handleSubmit_start p = (p, None))
  /\ (Workspace.loading p = false ->
      Js.falsy (Js.trim (Workspace.input p)) = false ->
      Workspace.loading (fst (Workspace.handleSubmit_start p)) = true
      /\ snd (Workspace.handleSubmit_start p)
         = Some {| Workspace.chat_message := Js.trim (Workspace.input p);
                   Workspace.chat_repoFullName := Workspace.repoFullName p;
                   Workspace.chat_sessionId := Workspace.sessionId p |})
  /\ Workspace.loading (Workspace.handleSubmit_finally p) = false.
Proof.
  split; [apply in_flight_request|]. split.
  { eexists. cbn [step tasks]. split; [reflexivity|]. cbn. auto. }
  split.
  { unfold Workspace.handleSubmit_start. intros [-> | ->].
    - rewrite orb_true_r. reflexivity.
    - reflexivity. }
  split; [|reflexivity].
  intros Hl Hf. unfold Workspace.handleSubmit_start. rewrite Hl, Hf. cbn. auto.
Qed.

End ChatServerFacts.

(** ** The workspace page: committing *)

Section WorkspaceFacts.
Import Js Workspace.

Lemma commitAll_rejects (c : Checkout) (message : str) (exit_code : Z) :
  no_changes (tree c) = true \/ falsy message = true \/ exit_code <> 0%Z ->
  exists e, commitAll c message exit_code = (c, Some e).
Proof.
  unfold commitAll. intros H.
  destruct (no_changes (tree c)); [eauto|].
  destruct (falsy message); [eauto|].
  destruct (Z.eqb_spec exit_code 0) as [Hz|Hnz]; cbn [negb]; [|eauto].
  destruct H as [H|[H|H]]; [discriminate | discriminate | contradiction].
Qed.

Lemma alert_committed_ne (e : str) : alert_committed <> alert_commit_failed e.
Proof.
  intros H. apply (f_equal (fun s => nth 1 s 0%N)) in H.
  vm_compute in H. discriminate.
Qed.

Lemma commit_click_blank (p : Page) (c : Checkout) (exit_code : Z) :
  falsy (trim (commitMessage p)) = true ->
  commit_click p c exit_code = (p, c, []).
Proof.
  intros Hb. unfold commit_click, handleCommit_start. rewrite Hb. reflexivity.
Qed.

Lemma commit_click_rejected (p : Page) (c : Checkout) (exit_code : Z) :
  no_changes (tree c) = true \/ exit_code <> 0%Z ->
  snd (fst (commit_click p c exit_code)) = c
  /\ ~ In alert_committed (snd (commit_click p c exit_code))
  /\ commitMessage (fst (fst (commit_click p c exit_code))) = commitMessage p.
Proof.
  intros H. unfold commit_click, handleCommit_start.
  destruct (falsy (trim (commitMessage p))).
  - cbn. tauto.
  - unfold commit_route. cbn [commit_message].
    destruct (commitAll_rejects c (commitMessage p) exit_code) as [e He];
      [tauto|].
    rewrite He. cbn. split; [reflexivity|]. split; [|reflexivity].
    intros [Heq|[]]. symmetry in Heq. revert Heq. apply alert_committed_ne.
Qed.

Example commit_of_a_dirty_checkout :
  commitAll Samples.dirty_checkout (lit "add notes") 0
  = ({| tree := clean_tree; log := [lit "add notes"] |}, None).
Proof. reflexivity. Qed.

(** C7. [commitAll] fails and leaves the checkout exactly as it was when
    there is nothing to commit, when the message is empty, or when the
    version-control command exits non-zero. In the page, a commit message
    that is empty or all white space is turned away by [handleCommit]
    before any request is sent: page and checkout are unchanged; and a
    click that meets one of the other two failures leaves the checkout
    unchanged, keeps the message and never reports success. *)
Theorem commit_fails_without_effect (p : Page) (c : Checkout) (message : str)
    (exit_code : Z) :
  (no_changes (tree c) = true \/ falsy message = true \/ exit_code <> 0%Z ->
   fst (commitAll c message exit_code) = c
   /\ is_Some (snd (commitAll c message exit_code)))
  /\ (falsy (trim (commitMessage p)) = true ->
      commit_click p c exit_code = (p, c, []))
  /\ (no_changes (tree c) = true \/ exit_code <> 0%Z ->
      snd (fst (commit_click p c exit_code)) = c
      /\ ~ In alert_committed (snd (commit_click p c exit_code))
      /\ commitMessage (fst (fst (commit_click p c exit_code))) = commitMessage p).
Proof.
  split; [|split].
  - intros H. destruct (commitAll_rejects c message exit_code H) as [e He].
    rewrite He. cbn. eauto.
  - apply commit_click_blank.
  - apply commit_click_rejected.
Qed.

End WorkspaceFacts.

(** ** Concrete runs *)

Section Instances.
Import ChatServer.

Lemma first_close_ticks (n : nat) (text : string) :
  first_close (replicate n (stdout_data text)) = None.
Proof. induction n as [|n IH]; [reflexivity | exact IH]. Qed.

Lemma chunks_not_terminal (l : list string) :
  existsb is_terminal (map EvChunk l) = false.
Proof. induction l as [|x l IH]; [reflexivity | exact IH]. Qed.

(** C1, the claim as stated fails: a task whose process does not close
    gets no terminal frame. However many chunks the process has printed,
    the frames written are [chunk] frames only and the response is still
    open; so it is not true that every run delivers a terminal frame. *)
Lemma unclosed_process_gets_no_terminal_frame :
  (forall n : nat,
     let r := res (task (handle_chat Samples.build_prompt Samples.empty_world
                           "s1" "hi" (replicate n (stdout_data "tick")))) in
     existsb is_terminal (written r) = false /\ ended r = false)
  /\ ~ (forall evs : list ProcEvent,
          exists e,
            In e (written (res (task (handle_chat Samples.build_prompt
                                        Samples.empty_world "s1" "hi" evs))))
            /\ is_terminal e = true).
Proof.
  split.
  - intros n. cbv zeta. unfold handle_chat.
    destruct (deliver_open (replicate n (stdout_data "tick"))
                (post_chat Samples.build_prompt Samples.empty_world "s1" "hi")
                (first_close_ticks n "tick") eq_refl)
      as (_&_&_&_&Hres&_&_).
    rewrite Hres. cbn [written ended post_chat task res app].
    split; [apply chunks_not_terminal | reflexivity].
  - intros H. destruct (H []) as (e & Hin & _). exact Hin.
Qed.

(** C2, the claim as stated fails: a second request for session "s1" is
    admitted while the first task is unterminated; both processes run and
    their output interleaves, and neither response carries a rejection. *)
Lemma second_task_admitted_while_first_runs :
  let st := run Samples.build_prompt boot
              [Request "s1" "first"; Proc 0 (stdout_data "wor");
               Request "s1" "second"; Proc 1 (stdout_data "also");
               Proc 0 (stdout_data "king")] in
  in_flight "s1" st = 2
  /\ map res (tasks st)
     = [ {| written := [EvChunk "wor"; EvChunk "king"]; ended := false |};
         {| written := [EvChunk "also"]; ended := false |} ].
Proof. vm_compute. split; reflexivity. Qed.

(** C3, the claim as stated fails: no pool size bounds the processes
    outstanding. *)
Lemma pool_is_unbounded :
  ~ exists N : nat, forall tr : list Input,
      outstanding (run Samples.build_prompt boot tr) <= N.
Proof.
  intros [N H].
  specialize (H (replicate (S N) (Request "s1" "hello"))).
  rewrite outstanding_replicate in H. cbn in H. lia.
Qed.

(** C4, the claim as stated fails: the executor has no timeout, and a
    process that does not exit leaves the stream open, without any
    [error] frame. *)
Lemma executor_has_no_timeout :
  ~ (exists T : Z, timeout chat_spawn_options = Some T /\ (0 < T)%Z)
  /\ (let r := handle_chat Samples.build_prompt Samples.empty_world "s1" "hi"
                 [stdout_data "thinking"; stderr_data "retry"; stdout_data "..."] in
      timeout (options (claude (task r))) = None
      /\ exited (claude (task r)) = false
      /\ res (task r)
         = {| written := [EvChunk "thinking"; EvChunk "..."]; ended := false |}).
Proof.
  split.
  - intros (T & HT & _). discriminate HT.
  - vm_compute. repeat split; reflexivity.
Qed.

End Instances.

Section RepoIntegrationsJsRuns.
Import RepoIntegrationsJs.


(** C9, the failing input: without a cookie, GET for the repo name
    [constructor] finds the [Object] function on the prototype chain, and
    the response has no [integrations] property; for a name that is not
    inherited it carries the empty record. *)
Lemma GET_constructor_has_no_integrations :
  GET Samples.node_runtime Samples.parse_value None (Some "constructor")
  = Answer {| status := 200; payload := GetOne None; set_cookie := None |}
  /\ GET Samples.node_runtime Samples.parse_value None (Some "acme/site")
     = Answer {| status := 200; payload := GetOne (Some (JObj ∅));
                 set_cookie := None |}.
Proof. split; vm_compute; reflexivity. Qed.

(** A POST that names [__proto__] writes the service onto
    [Object.prototype], answers with it, and persists nothing; one that
    names [constructor] writes onto the [Object] function and answers
    without an [integrations] property. *)
Example POST_on_inherited_names :
  POST Samples.node_runtime Samples.parse_value None
    (Some {| post_repo := Some "__proto__";
             post_vercel := Some Samples.vercel_project;
             post_supabase := None |})
  = Answer {| status := 200;
              payload := PostOk (Some (JObj {[ "vercel" := Samples.vercel_project ]}));
              set_cookie := Some (JObj ∅) |}
  /\ POST Samples.node_runtime Samples.parse_value None
       (Some {| post_repo := Some "constructor";
                post_vercel := Some Samples.vercel_project;
                post_supabase := None |})
     = Answer {| status := 200; payload := PostOk None;
                 set_cookie := Some (JObj ∅) |}.
Proof. split; vm_compute; reflexivity. Qed.

(** With an own entry that is [null], POST with [null] for a service
    deletes the entry and DELETE of the service keeps it. *)
Example POST_null_differs_from_DELETE_on_null_entry :
  store_after_call Samples.node_runtime (JObj {[ "acme/site" := JNull ]})
    (CallPOST (Some {| post_repo := Some "acme/site"; post_vercel := Some JNull;
                       post_supabase := None |}))
  = Some (JObj ∅)
  /\ store_after_call Samples.node_runtime (JObj {[ "acme/site" := JNull ]})
       (CallDELETE (Some {| del_repo := Some "acme/site";
                            del_service := Some (JStr "vercel") |}))
     = Some (JObj {[ "acme/site" := JNull ]}).
Proof. split; vm_compute; reflexivity. Qed.

End RepoIntegrationsJsRuns.

(** ** The theorems at concrete inputs *)

Section Witnesses.
Import ChatServer.

Lemma request_always_admitted_witness :
  (Workspace.loading (Samples.page (Js.lit "again") true) = true
   /\ Workspace.handleSubmit_start (Samples.page (Js.lit "again") true)
      = (Samples.page (Js.lit "again") true, None))
  /\ (Workspace.loading (Samples.page (Js.lit " fix the bug ") false) = false
      /\ Js.falsy (Js.trim (Workspace.input (Samples.page (Js.lit " fix the bug ") false)))
         = false
      /\ Workspace.loading
           (fst (Workspace.handleSubmit_start
                   (Samples.page (Js.lit " fix the bug ") false))) = true).
Proof.
  split.
  - split; [reflexivity|].
    apply (proj1 (proj2 (proj2
             (request_always_admitted Samples.build_prompt boot "s1" "hi"
                (Samples.page (Js.lit "again") true))))).
    left. reflexivity.
  - split; [reflexivity|]. split; [reflexivity|].
    apply (proj1 (proj2 (proj2 (proj2
             (request_always_admitted Samples.build_prompt boot "s1" "hi"
                (Samples.page (Js.lit " fix the bug ") false)))))
             eq_refl eq_refl).
Defined.

Lemma outstanding_accounting_witness :
  let tr := [Request "s1" "a"; Request "s2" "b"; Proc 0 (stdout_data "x");
             Proc 1 (close (Some 1%Z)); Proc 0 (close (Some 0%Z))] in
  well_formed Samples.build_prompt boot tr = true
  /\ closes tr = requests tr
  /\ outstanding (run Samples.build_prompt boot tr) = 0.
Proof.
  cbv zeta. split; [vm_compute; reflexivity|]. split; [reflexivity|].
  apply (proj2 (proj2 (outstanding_accounting Samples.build_prompt
                         [Request "s1" "a"; Request "s2" "b";
                          Proc 0 (stdout_data "x");
                          Proc 1 (close (Some 1%Z)); Proc 0 (close (Some 0%Z))]
                         0 "s1" "a")
                 ltac:(vm_compute; reflexivity))).
  reflexivity.
Defined.

Lemma no_timeout_only_generic_error_witness :
  first_close [stdout_data "thinking"; stderr_data "retry"] = None
  /\ ended (res (task (handle_chat Samples.build_prompt Samples.empty_world
                         "s1" "hi" [stdout_data "thinking"; stderr_data "retry"])))
     = false.
Proof.
  split; [reflexivity|].
  apply (proj1 (proj2 (no_timeout_only_generic_error Samples.build_prompt
                         Samples.empty_world "s1" "hi"
                         [stdout_data "thinking"; stderr_data "retry"]))).
  reflexivity.
Defined.

Lemma done_carries_whole_output_witness :
  first_close [stdout_data "Hel"; stderr_data "warn"; stdout_data "lo"] = None
  /\ written (res (task (handle_chat Samples.build_prompt Samples.empty_world
                           "s1" "hi"
                           ([stdout_data "Hel"; stderr_data "warn"; stdout_data "lo"]
                            ++ [close (Some 0%Z)]))))
     = [EvChunk "Hel"; EvChunk "lo"; EvDone "Hello"].
Proof.
  split; [reflexivity|].
  apply (done_carries_whole_output Samples.build_prompt Samples.empty_world
           "s1" "hi" [stdout_data "Hel"; stderr_data "warn"; stdout_data "lo"]).
  reflexivity.
Defined.

Lemma failure_is_generic_and_silent_witness :
  first_close [stdout_data "par"; stderr_data "ENOMEM"] = None
  /\ Some 1%Z <> Some 0%Z
  /\ written (res (task (handle_chat Samples.build_prompt Samples.empty_world
                           "s1" "hi"
                           ([stdout_data "par"; stderr_data "ENOMEM"]
                            ++ [close (Some 1%Z)]))))
     = [EvChunk "par"; EvError "Claude process failed"].
Proof.
  split; [reflexivity|]. split; [discriminate|].
  apply (failure_is_generic_and_silent Samples.build_prompt Samples.empty_world
           "s1" "hi" [stdout_data "par"; stderr_data "ENOMEM"] (Some 1%Z)).
  - reflexivity.
  - discriminate.
Defined.

Lemma commit_fails_without_effect_witness :
  (Js.falsy [] = true
   /\ fst (Workspace.commitAll Samples.dirty_checkout [] 0) = Samples.dirty_checkout)
  /\ (Js.falsy (Js.trim (Workspace.commitMessage (Samples.page (Js.lit "  ") false)))
      = true
      /\ Workspace.commit_click (Samples.page (Js.lit "  ") false)
           Samples.dirty_checkout 0
         = (Samples.page (Js.lit "  ") false, Samples.dirty_checkout, []))
  /\ (1%Z <> 0%Z
      /\ snd (fst (Workspace.commit_click (Samples.page (Js.lit "add notes") false)
                     Samples.dirty_checkout 1))
         = Samples.dirty_checkout).
Proof.
  split; [|split].
  - split; [reflexivity|].
    apply (proj1 (commit_fails_without_effect (Samples.page [] false)
                    Samples.dirty_checkout [] 0)).
    right. left. reflexivity.
  - split; [reflexivity|].
    apply (proj1 (proj2 (commit_fails_without_effect
                           (Samples.page (Js.lit "  ") false)
                           Samples.dirty_checkout [] 0))).
    reflexivity.
  - split; [discriminate|].
    apply (proj2 (proj2 (commit_fails_without_effect
                           (Samples.page (Js.lit "add notes") false)
                           Samples.dirty_checkout [] 1))).
    right. discriminate.
Defined.

End Witnesses.

Section RouteWitnesses.
Import RepoIntegrationsJs.



End RouteWitnesses.

(** * Further properties *)

(** ** Strings: trimming and splitting *)

Section JsFacts.
Import Js.

Lemma trimStart_split (s : str) :
  exists ws, s = ws ++ trimStart s /\ forallb is_white_space ws = true.
Proof.
  induction s as [|c s IH]; cbn [trimStart].
  - exists []. split; reflexivity.
  - destruct (is_white_space c) eqn:Hc.
    + destruct IH as (ws & Hs & Hws). exists (c :: ws). split.
      * cbn. congruence.
      * cbn. rewrite Hc, Hws. reflexivity.
    + exists []. split; reflexivity.
Qed.

Lemma trimStart_head (s : str) (c : N) :
  head (trimStart s) = Some c -> is_white_space c = false.
Proof.
  induction s as [|d s IH]; cbn [trimStart]; [discriminate|].
  destruct (is_white_space d) eqn:Hd; [exact IH|].
  cbn. intros [= <-]. exact Hd.
Qed.

Lemma forallb_rev {A : Type} (f : A -> bool) (l : list A) :
  forallb f (rev l) = forallb f l.
Proof.
  induction l as [|x l IH]; [reflexivity|].
  cbn. rewrite forallb_app, IH. cbn.
  destruct (f x), (forallb f l); reflexivity.
Qed.

Lemma trimEnd_split (s : str) :
  exists ws, s = trimEnd s ++ ws /\ forallb is_white_space ws = true.
Proof.
  destruct (trimStart_split (rev s)) as (ws & Hs & Hws).
  exists (rev ws). split.
  - unfold trimEnd. rewrite <- rev_app_distr, <- Hs, rev_involutive.
    reflexivity.
  - rewrite forallb_rev. exact Hws.
Qed.

Lemma last_rev_head {A : Type} (l : list A) : last (rev l) = head l.
Proof. destruct l as [|x l]; [reflexivity|]. cbn [rev]. apply last_snoc. Qed.

Lemma trimEnd_last (s : str) (c : N) :
  last (trimEnd s) = Some c -> is_white_space c = false.
Proof.
  unfold trimEnd. rewrite last_rev_head. apply trimStart_head.
Qed.

Lemma trimEnd_head (s : str) (c : N) :
  head (trimEnd s) = Some c -> head s = Some c.
Proof.
  destruct (trimEnd_split s) as (ws & Hs & _).
  destruct (trimEnd s) as [|d t]; [discriminate|].
  intros H. rewrite Hs. exact H.
Qed.

(** [trim] removes white space at both ends and nothing else. *)
Lemma trim_spec (s : str) :
  (exists ws1 ws2,
     s = ws1 ++ trim s ++ ws2
     /\ forallb is_white_space ws1 = true
     /\ forallb is_white_space ws2 = true)
  /\ (forall c, head (trim s) = Some c -> is_white_space c = false)
  /\ (forall c, last (trim s) = Some c -> is_white_space c = false).
Proof.
  unfold trim. split; [|split].
  - destruct (trimStart_split s) as (ws1 & Hs & H1).
    destruct (trimEnd_split (trimStart s)) as (ws2 & Ht & H2).
    exists ws1, ws2. split; [|split; assumption].
    rewrite <- Ht. exact Hs.
  - intros c Hc. apply trimEnd_head in Hc. apply (trimStart_head s). exact Hc.
  - intros c. apply trimEnd_last.
Qed.

Lemma split_nonempty (sep : N) (s : str) : split sep s <> [].
Proof.
  induction s as [|c s IH]; cbn [split]; [discriminate|].
  destruct (c =? sep)%N; [discriminate|].
  destruct (split sep s); [contradiction | discriminate].
Qed.

(** Splitting a text that holds the separator: the pieces of the part
    before it, then the pieces of the part after it. *)
Lemma split_app_sep (sep : N) (a b : str) :
  split sep (a ++ sep :: b) = split sep a ++ split sep b.
Proof.
  induction a as [|c a IH]; cbn [app split].
  - rewrite N.eqb_refl. reflexivity.
  - destruct (c =? sep)%N.
    + rewrite IH. reflexivity.
    + rewrite IH. pose proof (split_nonempty sep a) as Hne.
      destruct (split sep a) as [|l ls]; [contradiction|]. reflexivity.
Qed.

Lemma split_no_sep (sep : N) (s : str) : ~ In sep s -> split sep s = [s].
Proof.
  induction s as [|c s IH]; intros Hn; [reflexivity|].
  cbn [split]. destruct (N.eqb_spec c sep) as [->|Hne].
  - exfalso. apply Hn. left. reflexivity.
  - rewrite IH; [reflexivity|]. intros Hin. apply Hn. right. exact Hin.
Qed.

(** Joining the pieces gives the text back. *)
Lemma join_split (sep : N) (s : str) : join sep (split sep s) = s.
Proof.
  induction s as [|c s IH]; [reflexivity|].
  cbn [split]. destruct (N.eqb_spec c sep) as [->|Hne].
  - pose proof (split_nonempty sep s) as Hne.
    destruct (split sep s) as [|l ls] eqn:Hs; [contradiction|].
    cbn [join app]. cbn [join] in IH. rewrite IH. reflexivity.
  - pose proof (split_nonempty sep s) as Hne'.
    destruct (split sep s) as [|l ls] eqn:Hs; [contradiction|].
    cbn [join] in *. destruct ls as [|l' ls'].
    + cbn. congruence.
    + cbn [app]. rewrite <- IH. reflexivity.
Qed.

Lemma split_length (sep : N) (s : str) :
  length (split sep s) = S (count_occ N.eq_dec s sep).
Proof.
  induction s as [|c s IH]; [reflexivity|].
  cbn [split count_occ]. destruct (N.eqb_spec c sep) as [->|Hne].
  - destruct (N.eq_dec sep sep) as [_|Hn]; [|contradiction].
    cbn [length]. rewrite IH. reflexivity.
  - destruct (N.eq_dec c sep) as [He|_]; [contradiction|].
    pose proof (split_nonempty sep s) as Hne'.
    destruct (split sep s) as [|l ls]; [contradiction|]. exact IH.
Qed.

End JsFacts.

(** ** The workspace page: what is sent and what is shown *)

Section WorkspaceMore.
Import Js Workspace.

Variable JSON_parse : str -> option Data.

(** X1. When [handleSubmit] sends a request, the page was not loading and
    the message sent is the input with the white space at its two ends
    removed and nothing else: it is not empty and neither starts nor ends
    with white space. *)
Theorem submitted_message_is_trimmed_input (p : Page) (req : ChatRequest) :
  snd (handleSubmit_start p) = Some req ->
  loading p = false
  /\ chat_message req <> []
  /\ (exists ws1 ws2,
        input p = ws1 ++ chat_message req ++ ws2
        /\ forallb is_white_space ws1 = true
        /\ forallb is_white_space ws2 = true)
  /\ (forall c, head (chat_message req) = Some c -> is_white_space c = false)
  /\ (forall c, last (chat_message req) = Some c -> is_white_space c = false).
Proof.
  unfold handleSubmit_start.
  destruct (falsy (trim (input p))) eqn:Hf; [discriminate|].
  destruct (loading p) eqn:Hl; [discriminate|].
  cbn. intros [= <-]. cbn [chat_message].
  destruct (trim_spec (input p)) as (Hsplit & Hhead & Hlast).
  split; [reflexivity|]. split.
  - intros He. rewrite He in Hf. discriminate.
  - auto.
Qed.

(** X2. The controls agree with the handlers. The send button is
    disabled exactly when [handleSubmit] would return without sending.
    An enabled commit button always leads to a request carrying the
    message as typed; the handler itself does not look at [committing]:
    only the disabled button keeps a second commit from being sent while
    one is under way. *)
Theorem buttons_follow_guards (p : Page) :
  (send_disabled p = true <-> snd (handleSubmit_start p) = None)
  /\ (commit_disabled p = false ->
      snd (handleCommit_start p)
      = Some {| commit_repoFullName := repoFullName p;
                commit_message := commitMessage p |})
  /\ (committing p = true -> falsy (trim (commitMessage p)) = false ->
      commit_disabled p = true
      /\ snd (handleCommit_start p)
         = Some {| commit_repoFullName := repoFullName p;
                   commit_message := commitMessage p |}).
Proof.
  unfold send_disabled, commit_disabled, handleSubmit_start, handleCommit_start.
  split; [|split].
  - destruct (loading p), (falsy (trim (input p))); cbn; split;
      intros; first [reflexivity | discriminate].
  - destruct (falsy (trim (commitMessage p))); [discriminate|]. reflexivity.
  - intros -> ->. split; reflexivity.
Qed.

Lemma on_line_text (line acc : str) :
  on_line JSON_parse line acc = acc ++ line_text JSON_parse line.
Proof.
  unfold on_line, line_text.
  destruct (startsWith (lit "data: ") line); [|rewrite app_nil_r; reflexivity].
  destruct (JSON_parse (drop 6 line)) as [d|]; [|rewrite app_nil_r; reflexivity].
  destruct (is_chunk_with_content d); [reflexivity | rewrite app_nil_r; reflexivity].
Qed.

Lemma on_lines_text (ls : list str) : forall acc : str,
  foldl (fun acc line => on_line JSON_parse line acc) acc ls
  = acc ++ concat (map (line_text JSON_parse) ls).
Proof.
  induction ls as [|l ls IH]; intros acc; cbn [foldl map concat].
  - rewrite app_nil_r. reflexivity.
  - rewrite IH, on_line_text, <- app_assoc. reflexivity.
Qed.

Lemma on_reads_text (reads : list str) : forall acc : str,
  foldl (fun acc chunk => on_read JSON_parse chunk acc) acc reads
  = acc ++ concat (map (line_text JSON_parse) (concat (map (split LF) reads))).
Proof.
  induction reads as [|r reads IH]; intros acc; cbn [foldl map concat].
  - rewrite app_nil_r. reflexivity.
  - rewrite IH. unfold on_read. rewrite on_lines_text.
    rewrite map_app, concat_app, <- app_assoc. reflexivity.
Qed.

Lemma read_stream_flat (reads : list str) :
  read_stream JSON_parse reads
  = concat (map (line_text JSON_parse) (concat (map (split LF) reads))).
Proof. unfold read_stream. rewrite on_reads_text. reflexivity. Qed.

Lemma no_chunk_no_text (ls : list str) :
  Forall (fun line => forall d, JSON_parse (drop 6 line) = Some d ->
                      data_type d <> Some (lit "chunk")) ls ->
  concat (map (line_text JSON_parse) ls) = [].
Proof.
  induction 1 as [|l ls Hl Hls IH]; [reflexivity|].
  cbn [map concat]. rewrite IH, app_nil_r.
  unfold line_text. destruct (startsWith (lit "data: ") l); [|reflexivity].
  destruct (JSON_parse (drop 6 l)) as [d|] eqn:Hd; [|reflexivity].
  unfold is_chunk_with_content.
  rewrite bool_decide_eq_false_2 by (apply Hl; reflexivity). reflexivity.
Qed.

Lemma line_text_unparsed (l : str) :
  JSON_parse (drop 6 l) = None -> line_text JSON_parse l = [].
Proof.
  intros H. unfold line_text. rewrite H.
  destruct (startsWith (lit "data: ") l); reflexivity.
Qed.

(** X3. The text the page shows for a stream is the concatenation, in
    arrival order, of the contents of its chunk lines. A line that does
    not start with [data: ], that does not parse, or that carries another
    type (a [done] or an [error] frame) adds nothing: in particular the
    text of an [error] frame never reaches the screen. *)
Theorem read_stream_shows_chunks_only (reads : list str) :
  read_stream JSON_parse reads
  = concat (map (line_text JSON_parse) (concat (map (split LF) reads)))
  /\ (Forall (fun line => forall d, JSON_parse (drop 6 line) = Some d ->
                          data_type d <> Some (lit "chunk"))
        (concat (map (split LF) reads)) ->
      read_stream JSON_parse reads = []).
Proof.
  split; [apply read_stream_flat|].
  intros Hall. rewrite read_stream_flat. apply no_chunk_no_text. exact Hall.
Qed.

(** X4. How whole lines are grouped into reads does not matter: two
    reads give the same text as one read holding the first, a newline,
    and the second. *)
Theorem read_stream_batching (before after : list str) (a b : str) :
  read_stream JSON_parse (before ++ [a ++ LF :: b] ++ after)
  = read_stream JSON_parse (before ++ [a; b] ++ after).
Proof.
  rewrite !read_stream_flat. do 2 f_equal.
  rewrite !map_app, !concat_app. f_equal. f_equal.
  cbn [map concat]. rewrite split_app_sep, !app_nil_r. reflexivity.
Qed.

(** X5. Lines are not carried over from one read to the next: when a
    chunk line arrives cut in two, so that the first part does not parse
    and the second does not start with [data: ], its content is lost,
    though the same line arriving whole is shown. *)
Theorem frame_cut_between_reads_is_lost (l1 l2 c : str) :
  ~ In LF (l1 ++ l2) ->
  startsWith (lit "data: ") (l1 ++ l2) = true ->
  JSON_parse (drop 6 (l1 ++ l2))
  = Some {| data_type := Some (lit "chunk"); data_content := Some c |} ->
  c <> [] ->
  JSON_parse (drop 6 l1) = None ->
  startsWith (lit "data: ") l2 = false ->
  read_stream JSON_parse [l1 ++ l2] = c
  /\ read_stream JSON_parse [l1; l2] = [].
Proof.
  intros Hnl Hstart Hparse Hc Hp1 Hs2.
  assert (Hn1 : ~ In LF l1) by (intros H; apply Hnl, in_or_app; auto).
  assert (Hn2 : ~ In LF l2) by (intros H; apply Hnl, in_or_app; auto).
  rewrite !read_stream_flat. cbn [map concat].
  rewrite (split_no_sep LF (l1 ++ l2) Hnl), (split_no_sep LF l1 Hn1),
    (split_no_sep LF l2 Hn2).
  cbn [app map concat]. rewrite !app_nil_r. split.
  - unfold line_text. rewrite Hstart, Hparse.
    unfold is_chunk_with_content. cbn [data_type data_content default].
    rewrite bool_decide_eq_true_2 by reflexivity.
    destruct c; [contradiction | reflexivity].
  - rewrite (line_text_unparsed l1 Hp1). unfold line_text. rewrite Hs2.
    reflexivity.
Qed.

(** X6. Whatever becomes of the request, once [handleSubmit] has settled
    the page is no longer loading, the input is empty, and the
    conversation holds the user's message followed by at least one
    assistant message; when the request or a read failed, the last of
    them is the fixed error text. *)
Theorem submit_always_settles (p p1 : Page) (req : ChatRequest)
    (o : FetchOutcome) (status_reply : option GitStatus) :
  handleSubmit_start p = (p1, Some req) ->
  let p2 := handleSubmit_settle JSON_parse p1 o status_reply in
  loading p2 = false
  /\ input p2 = []
  /\ exists replies,
       messages p2
       = messages p ++ {| role := user; content := chat_message req |} :: replies
       /\ replies <> []
       /\ Forall (fun m => role m = assistant) replies
       /\ (match o with
           | stream_ended _ => True
           | _ => last replies
                  = Some {| role := assistant; content := msg_fetch_error |}
           end).
Proof.
  unfold handleSubmit_start.
  destruct (falsy (trim (input p)) || loading p); [discriminate|].
  intros [= <- <-]. cbv zeta.
  destruct o as [|reads|reads]; cbn.
  - repeat split. eexists [_]. rewrite <- app_assoc. cbn.
    repeat split; [discriminate | repeat constructor].
  - destruct status_reply; cbn; repeat split;
      (eexists [_]; rewrite <- app_assoc; cbn;
       repeat split; [discriminate | repeat constructor]).
  - repeat split. eexists [_; _]. rewrite <- !app_assoc. cbn.
    repeat split; [discriminate | repeat constructor].
Qed.

(** X7. The badge on the Git button is shown exactly when the count it
    displays is positive; without a status there is no badge. *)
Theorem badge_iff_positive_count (p : Page) :
  (hasChanges p = true <-> 0 < changesCount p)
  /\ (gitStatus p = None -> hasChanges p = false /\ changesCount p = 0).
Proof.
  unfold hasChanges, changesCount, length_or_0. split.
  - destruct (gitStatus p) as [g|]; [|split; [discriminate | lia]].
    destruct (modified g), (added g), (deleted g), (untracked g); cbn;
      split; intros; first [reflexivity | discriminate | lia].
  - intros ->. split; reflexivity.
Qed.

End WorkspaceMore.

(** ** AddColumnModal: what a submit leaves in the form *)

Section AddColumnModalMore.
Import Js AddColumnModal.

(** X8. A rejected submit keeps everything the user typed (name, type,
    nullable, default value) and only sets the error text. An accepted
    submit passes type and nullable as chosen and the default value
    trimmed, and leaves the form exactly as [handleClose] does: in its
    initial state, with no error. *)
Theorem submit_keeps_or_resets_form (st : State) :
  match handleSubmit st with
  | (st', None) =>
      name st' = name st /\ type st' = type st
      /\ nullable st' = nullable st /\ defaultValue st' = defaultValue st
      /\ error st' <> []
  | (st', Some col) =>
      st' = handleClose st /\ st' = initial_state
      /\ col_type col = type st /\ col_nullable col = nullable st
      /\ col_defaultValue col = trim (defaultValue st)
  end.
Proof.
  unfold handleSubmit. cbn [name set_error].
  destruct (falsy (trim (name st))).
  - cbn. repeat split; discriminate.
  - destruct (test_anchored identifier_re (trim (name st))); cbn [negb].
    + cbn. repeat split; reflexivity.
    + cbn. repeat split; discriminate.
Qed.

End AddColumnModalMore.

(** ** The file viewer *)

Section FileViewerFacts.
Import Js FileViewer.

Variable toLowerCase : str -> str.
Variable atob : str -> option str.

Lemma last_split_suffix (sep : N) (base e : str) :
  ~ In sep e -> last (split sep (base ++ sep :: e)) = Some e.
Proof.
  intros He. rewrite split_app_sep, (split_no_sep sep e He). apply last_snoc.
Qed.

Lemma ext_suffix (base e : str) :
  ~ In DOT e -> ext toLowerCase (base ++ DOT :: e) = toLowerCase e.
Proof. intros He. unfold ext. rewrite last_split_suffix by assumption. reflexivity. Qed.

Lemma ext_no_dot (e : str) : ~ In DOT e -> ext toLowerCase e = toLowerCase e.
Proof. intros He. unfold ext. rewrite split_no_sep by assumption. reflexivity. Qed.

(** X9. Only the text after the last dot decides how a file is treated,
    and a name without a dot counts as its own extension: [base.e] and a
    file named just [e] get the same extension, so the same answers from
    the image, binary and markdown tests. *)
Theorem classification_by_last_piece (base e : str) :
  ~ In DOT e ->
  ext toLowerCase (base ++ DOT :: e) = toLowerCase e
  /\ ext toLowerCase e = toLowerCase e
  /\ isImageFile toLowerCase (base ++ DOT :: e) = isImageFile toLowerCase e
  /\ isBinaryFile toLowerCase (base ++ DOT :: e) = isBinaryFile toLowerCase e
  /\ isMarkdownFile toLowerCase (base ++ DOT :: e) = isMarkdownFile toLowerCase e.
Proof.
  intros He. unfold isImageFile, isBinaryFile, isMarkdownFile.
  rewrite (ext_suffix base e He), (ext_no_dot e He). repeat split.
Qed.

Lemma includes_disjoint (l1 l2 : list str) :
  forallb (fun y => negb (includes l2 y)) l1 = true ->
  forall x, includes l1 x && includes l2 x = false.
Proof.
  intros H x. unfold includes at 1.
  destruct (decide (x ∈ l1)) as [Hin|Hnin].
  - rewrite bool_decide_eq_true_2 by assumption. cbn.
    rewrite forallb_forall in H. apply list_elem_of_In in Hin.
    specialize (H x Hin). destruct (includes l2 x); [discriminate | reflexivity].
  - rewrite bool_decide_eq_false_2 by assumption. reflexivity.
Qed.

(** X10. The three tests never overlap: no file name is taken for two of
    image, binary and markdown, so the order in which the viewer tries
    them does not matter. For a markdown file sent as base64 the decoding
    effect always calls [atob]: [decodedContent] becomes the decoded text,
    or the text [Unable to decode file content] when [atob] throws. For an
    image or a binary file the effect leaves [decodedContent] as it was. *)
Theorem classes_are_disjoint (filename : str) :
  isImageFile toLowerCase filename && isBinaryFile toLowerCase filename = false
  /\ isImageFile toLowerCase filename && isMarkdownFile toLowerCase filename = false
  /\ isBinaryFile toLowerCase filename && isMarkdownFile toLowerCase filename = false
  /\ (isMarkdownFile toLowerCase filename = true ->
      forall content decodedContent,
        decode_effect toLowerCase atob (lit "base64") filename content decodedContent
        = match atob content with
          | Some decoded => decoded
          | None => lit "Unable to decode file content"
          end)
  /\ (isImageFile toLowerCase filename = true
      \/ isBinaryFile toLowerCase filename = true ->
      forall encoding content decodedContent,
        decode_effect toLowerCase atob encoding filename content decodedContent
        = decodedContent).
Proof.
  unfold decode_effect, isImageFile, isBinaryFile, isMarkdownFile.
  generalize (ext toLowerCase filename). intros x.
  pose proof (includes_disjoint image_extensions binaryExtensions
                ltac:(vm_compute; reflexivity) x) as H1.
  pose proof (includes_disjoint image_extensions markdown_extensions
                ltac:(vm_compute; reflexivity) x) as H2.
  pose proof (includes_disjoint binaryExtensions markdown_extensions
                ltac:(vm_compute; reflexivity) x) as H3.
  repeat split; try assumption.
  - intros Hm content decodedContent. rewrite Hm in H2, H3.
    rewrite andb_true_r in H2, H3.
    rewrite H2, H3. rewrite bool_decide_eq_true_2 by reflexivity. reflexivity.
  - intros [Hi|Hb] encoding content decodedContent.
    + rewrite Hi. cbn [negb]. rewrite andb_false_r. reflexivity.
    + rewrite Hb. cbn [negb]. rewrite andb_false_r. reflexivity.
Qed.

(** X11. The parent path of [dir/name] is [dir], and of a path without a
    slash the empty string. *)
Theorem parentPath_drops_last_piece (dir name : str) :
  ~ In SLASH name ->
  parentPath (dir ++ SLASH :: name) = dir /\ parentPath name = [].
Proof.
  intros Hn. unfold parentPath. split.
  - rewrite split_app_sep, (split_no_sep SLASH name Hn).
    rewrite removelast_last. apply join_split.
  - rewrite (split_no_sep SLASH name Hn). reflexivity.
Qed.

(** X12. The number of lines the header shows is one more than the
    number of newlines in the content: an empty file counts one line,
    and a final newline counts an empty line after it. *)
Theorem line_count_is_newlines_plus_one (decodedContent : str) :
  length (lines decodedContent) = S (count_occ N.eq_dec decodedContent LF)
  /\ length (lines (decodedContent ++ [LF])) = S (length (lines decodedContent)).
Proof.
  unfold lines. split; [apply split_length|].
  rewrite split_app_sep, length_app. cbn. lia.
Qed.

End FileViewerFacts.

(** ** The repo-integrations route: how the handlers compose

    Properties of the typed handlers of [RepoIntegrationsRoute]. On stores
    of the declared type these are the handlers at run time, as the last
    section on this route shows. *)

Section RepoIntegrationsMore.
Import RepoIntegrationsRoute.

Variable JSON_parse : string -> option RepoIntegrations.

Lemma cleanup_lookup (m : RepoIntegrations) (repo k : string) :
  (if Nat.eqb (Object_keys_length (default empty_entry (m !! repo))) 0
   then delete repo m else m) !! k
  = if decide (k = repo) then m !! repo ≫= kept else m !! k.
Proof.
  destruct (decide (k = repo)) as [->|Hne].
  - destruct (m !! repo) as [e|] eqn:He.
    + change (default empty_entry (Some e)) with e.
      change (Some e ≫= kept) with (kept e).
      unfold kept. destruct (Nat.eqb (Object_keys_length e) 0).
      * apply lookup_delete_eq.
      * exact He.
    + cbn. apply lookup_delete_eq.
  - destruct (Nat.eqb _ 0); [|reflexivity].
    apply lookup_delete_ne. congruence.
Qed.

Lemma init_lookup (m : RepoIntegrations) (repo : string) :
  match m !! repo with
  | None => <[repo := empty_entry]> m
  | Some _ => m
  end !! repo = Some (default empty_entry (m !! repo)).
Proof.
  destruct (m !! repo) as [e|] eqn:He; cbn [default].
  - exact He.
  - apply lookup_insert_eq.
Qed.

Lemma vercel_step_lookup (f : Field VercelLink) (m : RepoIntegrations) (repo : string) :
  match f with
  | Undefined => m
  | Null => alter (set_vercel None) repo m
  | Value v => alter (set_vercel (Some v)) repo m
  end !! repo
  = (fun e => set_vercel (merge_field f (vercel e)) e) <$> m !! repo.
Proof.
  destruct f as [| |v]; rewrite ?lookup_alter_eq; try reflexivity.
  destruct (m !! repo) as [[? ?]|]; reflexivity.
Qed.

Lemma supabase_step_lookup (f : Field SupabaseLink) (m : RepoIntegrations) (repo : string) :
  match f with
  | Undefined => m
  | Null => alter (set_supabase None) repo m
  | Value s => alter (set_supabase (Some s)) repo m
  end !! repo
  = (fun e => set_supabase (merge_field f (supabase e)) e) <$> m !! repo.
Proof.
  destruct f as [| |s]; rewrite ?lookup_alter_eq; try reflexivity.
  destruct (m !! repo) as [[? ?]|]; reflexivity.
Qed.

(** The object POST persists, entry by entry. *)
Lemma POST_persisted_lookup (cookie : option string) (b : PostBody) (k : string) :
  falsy (post_repo b) = false ->
  persisted JSON_parse cookie (POST JSON_parse cookie (Some b)) !! k
  = if decide (k = default "" (post_repo b))
    then kept (merge_entry b
                 (default empty_entry
                    (getRepoIntegrations JSON_parse cookie
                       !! default "" (post_repo b))))
    else getRepoIntegrations JSON_parse cookie !! k.
Proof.
  intros Hf. unfold persisted, POST. rewrite Hf.
  cbn [set_cookie setRepoIntegrations].
  set (repo := default "" (post_repo b)).
  set (m := getRepoIntegrations JSON_parse cookie).
  rewrite cleanup_lookup.
  destruct (decide (k = repo)) as [->|Hne].
  - rewrite supabase_step_lookup, vercel_step_lookup, init_lookup. reflexivity.
  - destruct (post_supabase b), (post_vercel b), (m !! repo);
      repeat (rewrite lookup_alter_ne by congruence);
      try (rewrite lookup_insert_ne by congruence); reflexivity.
Qed.

(** The object DELETE persists, entry by entry. *)
Lemma DELETE_persisted_lookup (cookie : option string) (b : DeleteBody)
    (svc : Service) (k : string) :
  falsy (del_repo b) || falsy (del_service b) = false ->
  parse_service (default "" (del_service b)) = Some svc ->
  persisted JSON_parse cookie (DELETE JSON_parse cookie (Some b)) !! k
  = if decide (k = default "" (del_repo b))
    then getRepoIntegrations JSON_parse cookie !! default "" (del_repo b)
         ≫= (fun e => kept (delete_service svc e))
    else getRepoIntegrations JSON_parse cookie !! k.
Proof.
  intros Hf Hs. unfold persisted, DELETE. rewrite Hf, Hs.
  cbn [set_cookie setRepoIntegrations].
  set (repo := default "" (del_repo b)).
  set (m := getRepoIntegrations JSON_parse cookie).
  destruct (m !! repo) as [e|] eqn:He.
  - rewrite cleanup_lookup. destruct (decide (k = repo)) as [->|Hne].
    + rewrite lookup_alter_eq, He. reflexivity.
    + apply lookup_alter_ne. congruence.
  - destruct (decide (k = repo)) as [->|Hne]; [rewrite He|]; reflexivity.
Qed.

Lemma rejected_persists_nothing (cookie : option string) (c : Call) :
  accepted c = false ->
  status (run_call JSON_parse cookie c) = 400
  /\ set_cookie (run_call JSON_parse cookie c) = None.
Proof.
  destruct c as [[b|]|[b|]]; cbn [accepted run_call]; intros Ha;
    try (split; reflexivity).
  - unfold POST. destruct (falsy (post_repo b)); [split; reflexivity | discriminate].
  - unfold DELETE.
    destruct (falsy (del_repo b)); [split; reflexivity|].
    destruct (falsy (del_service b)) eqn:Hfs; [split; reflexivity|].
    cbn [negb andb orb] in *.
    unfold parse_service.
    destruct (del_service b) as [s|]; [|discriminate].
    change (default "" (Some s)) with s.
    destruct (decide (s = "vercel")) as [->|Hv].
    { rewrite bool_decide_eq_true_2 in Ha by (left; reflexivity). discriminate. }
    destruct (decide (s = "supabase")) as [->|Hs].
    { rewrite bool_decide_eq_true_2 in Ha by (right; reflexivity). discriminate. }
    split; reflexivity.
Qed.

Lemma accepted_DELETE (b : DeleteBody) :
  accepted (CallDELETE (Some b)) = true ->
  falsy (del_repo b) || falsy (del_service b) = false
  /\ exists svc, parse_service (default "" (del_service b)) = Some svc
                 /\ del_service b = Some (service_name svc).
Proof.
  cbn [accepted]. intros Ha.
  apply andb_true_iff in Ha as [Ha Hd]. apply andb_true_iff in Ha as [Hr Hs].
  apply negb_true_iff in Hr, Hs. rewrite Hr, Hs. split; [reflexivity|].
  apply bool_decide_eq_true_1 in Hd as [Hd|Hd]; rewrite Hd.
  - exists svc_vercel. split; reflexivity.
  - exists svc_supabase. split; reflexivity.
Qed.

(** X13. A handler run changes at most the entry of the repo its body
    names: every other entry of the store is persisted as it was read. *)
Theorem handlers_touch_only_named_repo (cookie : option string) (c : Call)
    (k : string) :
  call_repo c <> Some k ->
  persisted JSON_parse cookie (run_call JSON_parse cookie c) !! k
  = getRepoIntegrations JSON_parse cookie !! k.
Proof.
  intros Hk. destruct (accepted c) eqn:Ha.
  - destruct c as [[b|]|[b|]]; try discriminate; cbn [run_call call_repo] in *.
    + cbn [accepted] in Ha. apply negb_true_iff in Ha.
      rewrite POST_persisted_lookup by assumption.
      destruct (decide (k = default "" (post_repo b))) as [->|Hne]; [|reflexivity].
      exfalso. apply Hk. destruct (post_repo b); [reflexivity | discriminate].
    + destruct (accepted_DELETE b Ha) as (Hf & svc & Hs & _).
      rewrite (DELETE_persisted_lookup cookie b svc k Hf Hs).
      destruct (decide (k = default "" (del_repo b))) as [->|Hne]; [|reflexivity].
      exfalso. apply Hk. apply orb_false_iff in Hf as [Hr _].
      destruct (del_repo b); [reflexivity | discriminate].
  - destruct (rejected_persists_nothing cookie c Ha) as [_ Hc].
    unfold persisted. rewrite Hc. reflexivity.
Qed.

End RepoIntegrationsMore.

Section RepoIntegrationsStoreMore.
Import RepoIntegrationsRoute.

Lemma falsy_Some_ne (repo : string) : repo <> "" -> falsy (Some repo) = false.
Proof. intros H. cbn. destruct (decide (repo = "")); [contradiction | reflexivity]. Qed.

Lemma store_after_POST_lookup (m : RepoIntegrations) (b : PostBody) (k : string) :
  falsy (post_repo b) = false ->
  store_after_call m (CallPOST (Some b)) !! k
  = if decide (k = default "" (post_repo b))
    then kept (merge_entry b
                 (default empty_entry (m !! default "" (post_repo b))))
    else m !! k.
Proof.
  intros Hf. unfold store_after_call. cbn [run_call].
  rewrite POST_persisted_lookup by assumption. reflexivity.
Qed.

Lemma store_after_DELETE_lookup (m : RepoIntegrations) (b : DeleteBody)
    (svc : Service) (k : string) :
  falsy (del_repo b) || falsy (del_service b) = false ->
  parse_service (default "" (del_service b)) = Some svc ->
  store_after_call m (CallDELETE (Some b)) !! k
  = if decide (k = default "" (del_repo b))
    then m !! default "" (del_repo b) ≫= (fun e => kept (delete_service svc e))
    else m !! k.
Proof.
  intros Hf Hs. unfold store_after_call. cbn [run_call].
  rewrite (DELETE_persisted_lookup _ _ b svc k Hf Hs). reflexivity.
Qed.

Lemma store_after_rejected (m : RepoIntegrations) (c : Call) :
  accepted c = false -> store_after_call m c = m.
Proof.
  intros Ha. unfold store_after_call, persisted.
  destruct (rejected_persists_nothing (fun _ => Some m) (Some "{...}") c Ha)
    as [_ Hc].
  rewrite Hc. reflexivity.
Qed.

(** X15. DELETE undoes POST: linking a service to a repo the store does
    not know and then deleting that service gives back the store as it
    was. *)
Theorem DELETE_undoes_POST (m : RepoIntegrations) (repo : string)
    (v : VercelLink) (s : SupabaseLink) :
  repo <> "" ->
  m !! repo = None ->
  store_after_call
    (store_after_call m
       (CallPOST (Some {| post_repo := Some repo; post_vercel := Value v;
                          post_supabase := Undefined |})))
    (CallDELETE (Some {| del_repo := Some repo; del_service := Some "vercel" |}))
  = m
  /\ store_after_call
       (store_after_call m
          (CallPOST (Some {| post_repo := Some repo; post_vercel := Undefined;
                             post_supabase := Value s |})))
       (CallDELETE (Some {| del_repo := Some repo; del_service := Some "supabase" |}))
     = m.
Proof.
  intros Hne Hm. pose proof (falsy_Some_ne repo Hne) as Hf.
  split; apply map_eq; intros k.
  - rewrite (store_after_DELETE_lookup _ _ svc_vercel)
      by (cbn [del_repo del_service]; (rewrite Hf; reflexivity) || reflexivity).
    cbn [del_repo]. change (default "" (Some repo)) with repo.
    destruct (decide (k = repo)) as [->|Hk].
    + rewrite store_after_POST_lookup by exact Hf.
      cbn [post_repo]. change (default "" (Some repo)) with repo.
      rewrite decide_True by reflexivity. rewrite Hm. reflexivity.
    + rewrite store_after_POST_lookup by exact Hf.
      cbn [post_repo]. change (default "" (Some repo)) with repo.
      rewrite decide_False by exact Hk. reflexivity.
  - rewrite (store_after_DELETE_lookup _ _ svc_supabase)
      by (cbn [del_repo del_service]; (rewrite Hf; reflexivity) || reflexivity).
    cbn [del_repo]. change (default "" (Some repo)) with repo.
    destruct (decide (k = repo)) as [->|Hk].
    + rewrite store_after_POST_lookup by exact Hf.
      cbn [post_repo]. change (default "" (Some repo)) with repo.
      rewrite decide_True by reflexivity. rewrite Hm. reflexivity.
    + rewrite store_after_POST_lookup by exact Hf.
      cbn [post_repo]. change (default "" (Some repo)) with repo.
      rewrite decide_False by exact Hk. reflexivity.
Qed.

Lemma delete_service_kept_twice (svc : Service) (o : option RepoIntegration) :
  (o ≫= (fun e => kept (delete_service svc e)))
    ≫= (fun e => kept (delete_service svc e))
  = o ≫= (fun e => kept (delete_service svc e)).
Proof. destruct o as [[[v|] [s|]]|], svc; reflexivity. Qed.

(** X16. DELETE is idempotent: running the same DELETE a second time
    leaves the store as the first run left it, whatever the body. *)
Theorem DELETE_is_idempotent (m : RepoIntegrations) (body : option DeleteBody) :
  store_after_call (store_after_call m (CallDELETE body)) (CallDELETE body)
  = store_after_call m (CallDELETE body).
Proof.
  destruct (accepted (CallDELETE body)) eqn:Ha.
  - destruct body as [b|]; [|discriminate].
    destruct (accepted_DELETE b Ha) as (Hf & svc & Hs & _).
    apply map_eq. intros k.
    rewrite !(store_after_DELETE_lookup _ b svc) by assumption.
    destruct (decide (k = default "" (del_repo b))) as [->|Hk]; [|reflexivity].
    rewrite decide_True by reflexivity.
    apply delete_service_kept_twice.
  - rewrite !store_after_rejected by assumption. reflexivity.
Qed.

(** X17. Sending [null] for a service in a POST does to the store what
    a DELETE of that service does, for every store and every repo
    property, present or not. *)
Theorem POST_null_is_DELETE (m : RepoIntegrations) (repo : option string) :
  store_after_call m
    (CallPOST (Some {| post_repo := repo; post_vercel := Null;
                       post_supabase := Undefined |}))
  = store_after_call m
      (CallDELETE (Some {| del_repo := repo; del_service := Some "vercel" |}))
  /\ store_after_call m
       (CallPOST (Some {| post_repo := repo; post_vercel := Undefined;
                          post_supabase := Null |}))
     = store_after_call m
         (CallDELETE (Some {| del_repo := repo; del_service := Some "supabase" |})).
Proof.
  destruct (falsy repo) eqn:Hf.
  - rewrite !store_after_rejected; [split; reflexivity | | | |];
      cbn [accepted post_repo del_repo]; rewrite Hf; reflexivity.
  - split; apply map_eq; intros k.
    + rewrite (store_after_DELETE_lookup _ _ svc_vercel)
        by (cbn [del_repo del_service]; (rewrite Hf; reflexivity) || reflexivity).
      rewrite store_after_POST_lookup by exact Hf.
      cbn [del_repo post_repo].
      destruct (decide (k = default "" repo)) as [->|Hk]; [|reflexivity].
      destruct (m !! default "" repo) as [[[v|] [s|]]|]; reflexivity.
    + rewrite (store_after_DELETE_lookup _ _ svc_supabase)
        by (cbn [del_repo del_service]; (rewrite Hf; reflexivity) || reflexivity).
      rewrite store_after_POST_lookup by exact Hf.
      cbn [del_repo post_repo].
      destruct (decide (k = default "" repo)) as [->|Hk]; [|reflexivity].
      destruct (m !! default "" repo) as [[[v|] [s|]]|]; reflexivity.
Qed.

End RepoIntegrationsStoreMore.

(** ** The repo-integrations route at run time: answers and cookie *)

Section RepoIntegrationsJsMore.
Import RepoIntegrationsJs.

Variable rt : Runtime.

Lemma shown_after_settle (key : string) (em : gmap string JSON)
    (m : gmap string JSON) :
  rt key = inh_none ->
  settle key (own_object em) m !! key
  = (if Nat.eqb (size em) 0 then None else Some (JObj em))
  /\ shown rt (settle key (own_object em) m) key = Some (JObj em).
Proof.
  intros Hrt. unfold shown, target. cbn [settle].
  destruct (Nat.eqb_spec (size em) 0) as [Hz|Hnz].
  - rewrite lookup_delete_eq, Hrt. apply map_size_empty_inv in Hz. subst em.
    split; reflexivity.
  - rewrite lookup_insert_eq. split; reflexivity.
Qed.

(** The entry POST works on, when the name is not found on the chain and
    the own value, if any, is an object or falsy. *)
Lemma POST_target (m : gmap string JSON) (key : string) :
  rt key = inh_none ->
  (forall j, m !! key = Some j -> (exists em, j = JObj em) \/ truthy j = false) ->
  match target rt m key with
  | Some t => (t, m)
  | None => (own_object ∅, <[key := JObj ∅]> m)
  end
  = (own_object match m !! key with Some (JObj em) => em | _ => ∅ end,
     match target rt m key with Some _ => m | None => <[key := JObj ∅]> m end).
Proof.
  intros Hrt Hentry. unfold target. destruct (m !! key) as [j|] eqn:Hj.
  - destruct (Hentry j eq_refl) as [[em ->]|Hf].
    + reflexivity.
    + rewrite Hf. destruct j; try reflexivity; discriminate.
  - rewrite Hrt. reflexivity.
Qed.

Lemma settle_own_object_lookup (key k : string) (em : gmap string JSON)
    (m0 m : gmap string JSON) :
  (forall k, k <> key -> m0 !! k = m !! k) ->
  settle key (own_object em) m0 !! k
  = if decide (k = key)
    then (if Nat.eqb (size em) 0 then None else Some (JObj em))
    else m !! k.
Proof.
  intros Hother. destruct (decide (k = key)) as [->|Hne].
  - cbn [settle]. destruct (Nat.eqb (size em) 0).
    + apply lookup_delete_eq.
    + apply lookup_insert_eq.
  - rewrite settle_lookup_ne by exact Hne. apply Hother. exact Hne.
Qed.

(** POST on an entry that is an object, or on no entry: the answer and
    the object persisted, key by key. *)
Lemma POST_merges (m : gmap string JSON) (b : PostBody) (key : string) :
  post_repo b = Some key ->
  rt key = inh_none ->
  (forall j, m !! key = Some j -> (exists em, j = JObj em) \/ truthy j = false) ->
  let base := match m !! key with Some (JObj em) => em | _ => ∅ end in
  let merged := merge "supabase" (post_supabase b)
                  (merge "vercel" (post_vercel b) base) in
  exists m',
    on_store rt (JObj m) (CallPOST (Some b))
    = Answer {| status := 200; payload := PostOk (Some (JObj merged));
                set_cookie := Some (JObj m') |}
    /\ forall k, m' !! k
                 = if decide (k = key)
                   then (if Nat.eqb (size merged) 0 then None
                         else Some (JObj merged))
                   else m !! k.
Proof.
  intros Hrepo Hrt Hentry base merged.
  unfold on_store, run_call, POST.
  rewrite Hrepo, getRepoIntegrations_holding, (POST_target m key Hrt Hentry),
    !update_own_object.
  fold base. fold merged. cbn [answered].
  set (m0 := match target rt m key with Some _ => m | None => <[key := JObj ∅]> m end).
  destruct (shown_after_settle key merged m0 Hrt) as [_ Hs].
  exists (settle key (own_object merged) m0). split.
  - rewrite Hs. reflexivity.
  - intros k. apply settle_own_object_lookup.
    intros k' Hne. unfold m0. destruct (target rt m key); [reflexivity|].
    apply lookup_insert_ne. congruence.
Qed.

(** DELETE on an entry that is an object, or on no entry. *)
Lemma DELETE_removes (m : gmap string JSON) (b : DeleteBody)
    (key : string) (service : JSON) (serviceKey : string) :
  del_repo b = Some key ->
  del_service b = Some service ->
  service_key service = Some serviceKey ->
  rt key = inh_none ->
  (forall j, m !! key = Some j -> exists em, j = JObj em) ->
  exists m',
    on_store rt (JObj m) (CallDELETE (Some b))
    = Answer {| status := 200; payload := DeleteOk; set_cookie := Some (JObj m') |}
    /\ forall k, m' !! k
                 = if decide (k = key)
                   then match m !! key with
                        | Some (JObj em) =>
                            if Nat.eqb (size (delete serviceKey em)) 0 then None
                            else Some (JObj (delete serviceKey em))
                        | _ => None
                        end
                   else m !! k.
Proof.
  intros Hrepo Hservice Hkey Hrt Hentry.
  assert (Htruthy : truthy service = true).
  { destruct service; try discriminate. cbn in Hkey |- *.
    destruct (decide (s = "vercel")) as [->|]; [reflexivity|].
    destruct (decide (s = "supabase")) as [->|]; [reflexivity | discriminate]. }
  unfold on_store, run_call, DELETE.
  rewrite Hrepo, Hservice, Htruthy, Hkey, getRepoIntegrations_holding.
  cbn [negb]. eexists. split; [reflexivity|].
  intros k. unfold target. destruct (m !! key) as [j|] eqn:Hj.
  - destruct (Hentry j eq_refl) as [em ->]. cbn [truthy remove].
    rewrite (settle_own_object_lookup key k _ m m) by reflexivity.
    reflexivity.
  - rewrite Hrt. destruct (decide (k = key)) as [->|]; [exact Hj | reflexivity].
Qed.


(** At run time a POST with [null] for a service does what DELETE of that
    service does when the named entry is truthy or absent. An own entry
    that is falsy is replaced by [{}] and then deleted by POST, and left
    alone by DELETE. *)
Lemma POST_null_is_DELETE_at_run_time (m : gmap string JSON) (key : string) :
  (forall j, m !! key = Some j -> truthy j = true) ->
  store_after_call rt (JObj m)
    (CallPOST (Some {| post_repo := Some key; post_vercel := Some JNull;
                       post_supabase := None |}))
  = store_after_call rt (JObj m)
      (CallDELETE (Some {| del_repo := Some key;
                           del_service := Some (JStr "vercel") |})).
Proof.
  intros Hentry. unfold store_after_call, on_store, run_call, POST, DELETE.
  cbn [post_repo post_vercel post_supabase del_repo del_service truthy
       service_key negb].
  rewrite !getRepoIntegrations_holding.
  destruct (target rt m key) as [t|] eqn:Ht; [reflexivity|].
  cbn [update remove settle persisted set_cookie setRepoIntegrations].
  assert (Hnone : m !! key = None).
  { destruct (m !! key) as [j|] eqn:Hj; [|reflexivity].
    unfold target in Ht. rewrite Hj, (Hentry j eq_refl) in Ht.
    destruct j; discriminate. }
  rewrite delete_empty, map_size_empty. cbn [Nat.eqb].
  rewrite delete_insert_eq, delete_id by exact Hnone. reflexivity.
Qed.

Variable JSON_parse : string -> option JSON.




End RepoIntegrationsJsMore.

(** ** The typed route is the route at run time, on typed data *)

Section RouteAtDeclaredType.
Import RepoIntegrationsJs DeclaredType.

Variable rt : Runtime.

Lemma size_of_entry (e : RepoIntegrationsRoute.RepoIntegration) :
  size (of_entry e) = RepoIntegrationsRoute.Object_keys_length e.
Proof.
  destruct e as [[v|] [s|]]; unfold of_entry, RepoIntegrationsRoute.Object_keys_length;
    cbn [RepoIntegrationsRoute.vercel RepoIntegrationsRoute.supabase].
  - rewrite map_size_insert_None by (rewrite lookup_singleton_ne; [reflexivity|discriminate]).
    rewrite map_size_singleton. reflexivity.
  - apply map_size_singleton.
  - rewrite map_size_insert_None by apply lookup_empty.
    rewrite map_size_empty. reflexivity.
  - apply map_size_empty.
Qed.

Ltac entry_eq :=
  apply map_eq; intros k;
  destruct (decide (k = "vercel")) as [->|];
  [|destruct (decide (k = "supabase")) as [->|]];
  simplify_map_eq; reflexivity.

Lemma of_entry_vercel (f : RepoIntegrationsRoute.Field RepoIntegrationsRoute.VercelLink)
    (e : RepoIntegrationsRoute.RepoIntegration) :
  merge "vercel" (of_field of_vercel f) (of_entry e)
  = of_entry (RepoIntegrationsRoute.set_vercel
                (RepoIntegrationsRoute.merge_field f (RepoIntegrationsRoute.vercel e)) e).
Proof.
  destruct e as [[v|] [s|]], f as [| |a]; cbn; try reflexivity; entry_eq.
Qed.

Lemma of_entry_supabase (f : RepoIntegrationsRoute.Field RepoIntegrationsRoute.SupabaseLink)
    (e : RepoIntegrationsRoute.RepoIntegration) :
  merge "supabase" (of_field of_supabase f) (of_entry e)
  = of_entry (RepoIntegrationsRoute.set_supabase
                (RepoIntegrationsRoute.merge_field f (RepoIntegrationsRoute.supabase e)) e).
Proof.
  destruct e as [[v|] [s|]], f as [| |a]; cbn; try reflexivity; entry_eq.
Qed.

Lemma of_entry_merge (b : RepoIntegrationsRoute.PostBody)
    (e : RepoIntegrationsRoute.RepoIntegration) :
  merge "supabase" (of_field of_supabase (RepoIntegrationsRoute.post_supabase b))
    (merge "vercel" (of_field of_vercel (RepoIntegrationsRoute.post_vercel b))
       (of_entry e))
  = of_entry (RepoIntegrationsRoute.merge_entry b e).
Proof. rewrite of_entry_vercel, of_entry_supabase. destruct e; reflexivity. Qed.

Lemma of_entry_delete (svc : RepoIntegrationsRoute.Service)
    (e : RepoIntegrationsRoute.RepoIntegration) :
  delete (RepoIntegrationsRoute.service_name svc) (of_entry e)
  = of_entry (RepoIntegrationsRoute.delete_service svc e).
Proof.
  destruct svc.
  - exact (of_entry_vercel RepoIntegrationsRoute.Null e).
  - exact (of_entry_supabase RepoIntegrationsRoute.Null e).
Qed.

Lemma of_store_lookup (m : gmap string RepoIntegrationsRoute.RepoIntegration)
    (k : string) :
  of_store m !! k = (fun e => JObj (of_entry e)) <$> m !! k.
Proof. apply lookup_fmap. Qed.

Lemma of_kept (e : RepoIntegrationsRoute.RepoIntegration) :
  (if Nat.eqb (size (of_entry e)) 0 then None else Some (JObj (of_entry e)))
  = (fun e => JObj (of_entry e)) <$> RepoIntegrationsRoute.kept e.
Proof.
  unfold RepoIntegrationsRoute.kept. rewrite size_of_entry.
  destruct (Nat.eqb (RepoIntegrationsRoute.Object_keys_length e) 0); reflexivity.
Qed.

Lemma kept_default (e : RepoIntegrationsRoute.RepoIntegration) :
  default RepoIntegrationsRoute.empty_entry (RepoIntegrationsRoute.kept e) = e.
Proof.
  unfold RepoIntegrationsRoute.kept, RepoIntegrationsRoute.Object_keys_length.
  destruct e as [[v|] [s|]]; reflexivity.
Qed.

Lemma of_repo_key (repo : option string) :
  RepoIntegrationsRoute.falsy repo = false ->
  of_repo repo = Some (default "" repo).
Proof.
  unfold of_repo. intros Hf. rewrite Hf.
  destruct repo; [reflexivity | discriminate].
Qed.

Lemma typed_POST_response
    (m : gmap string RepoIntegrationsRoute.RepoIntegration)
    (b : RepoIntegrationsRoute.PostBody) :
  RepoIntegrationsRoute.falsy (RepoIntegrationsRoute.post_repo b) = false ->
  let P := RepoIntegrationsRoute.store_after_call m
             (RepoIntegrationsRoute.CallPOST (Some b)) in
  typed_on_store m (RepoIntegrationsRoute.CallPOST (Some b))
  = {| RepoIntegrationsRoute.status := 200;
       RepoIntegrationsRoute.payload :=
         RepoIntegrationsRoute.PostOk
           (default RepoIntegrationsRoute.empty_entry
              (P !! default "" (RepoIntegrationsRoute.post_repo b)));
       RepoIntegrationsRoute.set_cookie := Some P |}.
Proof.
  intros Hf. cbv zeta.
  unfold RepoIntegrationsRoute.store_after_call, RepoIntegrationsRoute.persisted,
    typed_on_store, RepoIntegrationsRoute.run_call, RepoIntegrationsRoute.POST.
  rewrite Hf. reflexivity.
Qed.

Lemma typed_DELETE_response
    (m : gmap string RepoIntegrationsRoute.RepoIntegration)
    (b : RepoIntegrationsRoute.DeleteBody) (svc : RepoIntegrationsRoute.Service) :
  RepoIntegrationsRoute.falsy (RepoIntegrationsRoute.del_repo b)
  || RepoIntegrationsRoute.falsy (RepoIntegrationsRoute.del_service b) = false ->
  RepoIntegrationsRoute.parse_service
    (default "" (RepoIntegrationsRoute.del_service b)) = Some svc ->
  typed_on_store m (RepoIntegrationsRoute.CallDELETE (Some b))
  = {| RepoIntegrationsRoute.status := 200;
       RepoIntegrationsRoute.payload := RepoIntegrationsRoute.DeleteOk;
       RepoIntegrationsRoute.set_cookie :=
         Some (RepoIntegrationsRoute.store_after_call m
                 (RepoIntegrationsRoute.CallDELETE (Some b))) |}.
Proof.
  intros Hf Hs.
  unfold RepoIntegrationsRoute.store_after_call, RepoIntegrationsRoute.persisted,
    typed_on_store, RepoIntegrationsRoute.run_call, RepoIntegrationsRoute.DELETE.
  rewrite Hf, Hs. reflexivity.
Qed.

Lemma parse_service_key (s : string) :
  service_key (JStr s)
  = RepoIntegrationsRoute.service_name <$> RepoIntegrationsRoute.parse_service s.
Proof.
  unfold service_key, RepoIntegrationsRoute.parse_service.
  destruct (decide (s = "vercel")); [reflexivity|].
  destruct (decide (s = "supabase")); reflexivity.
Qed.

(** X25. On a store of the declared type and a repo name that is not
    found on the prototype chain, the typed handlers of
    [RepoIntegrationsRoute] are the handlers at run time: same status,
    same payload, same object persisted. So what is proved of the typed
    handlers holds of the route on such stores. *)
Theorem typed_route_is_the_route_at_run_time
    (m : gmap string RepoIntegrationsRoute.RepoIntegration)
    (c : RepoIntegrationsRoute.Call) :
  (forall key, call_key (of_call c) = Some key -> rt key = inh_none) ->
  on_store rt (JObj (of_store m)) (of_call c)
  = Answer (of_response (typed_on_store m c)).
Proof.
  intros Hrt. destruct c as [[b|]|[b|]]; try reflexivity.
  - (* POST *)
    cbn [of_call fmap option_fmap option_map call_key] in *.
    destruct (RepoIntegrationsRoute.falsy (RepoIntegrationsRoute.post_repo b)) eqn:Hf.
    { unfold typed_on_store, on_store, run_call, POST,
        RepoIntegrationsRoute.run_call, RepoIntegrationsRoute.POST, of_repo.
      cbn [post_repo]. rewrite Hf. reflexivity. }
    pose proof (of_repo_key _ Hf) as Hkey.
    set (key := default "" (RepoIntegrationsRoute.post_repo b)) in *.
    specialize (Hrt key Hkey).
    set (b' := {| post_repo := of_repo (RepoIntegrationsRoute.post_repo b);
                  post_vercel := of_field of_vercel (RepoIntegrationsRoute.post_vercel b);
                  post_supabase :=
                    of_field of_supabase (RepoIntegrationsRoute.post_supabase b) |}).
    destruct (POST_merges rt (of_store m) b' key Hkey Hrt) as (m' & Hrun & Hm').
    { intros j Hj. rewrite of_store_lookup in Hj.
      destruct (m !! key); [|discriminate]. injection Hj as <-. eauto. }
    rewrite Hrun. subst b'. cbn [post_vercel post_supabase] in *.
    assert (Hbase : match of_store m !! key with Some (JObj em) => em | _ => ∅ end
                    = of_entry (default RepoIntegrationsRoute.empty_entry (m !! key))).
    { rewrite of_store_lookup. destruct (m !! key); reflexivity. }
    rewrite Hbase, of_entry_merge in Hm' |- *.
    set (e := RepoIntegrationsRoute.merge_entry b
                (default RepoIntegrationsRoute.empty_entry (m !! key))) in *.
    assert (Hstore : m' = of_store (RepoIntegrationsRoute.store_after_call m
                                      (RepoIntegrationsRoute.CallPOST (Some b)))).
    { apply map_eq. intros k. rewrite Hm'.
      rewrite (of_store_lookup (RepoIntegrationsRoute.store_after_call _ _) k).
      rewrite store_after_POST_lookup by exact Hf. fold key. fold e.
      destruct (decide (k = key)); [apply of_kept | apply of_store_lookup]. }
    rewrite (typed_POST_response m b Hf). cbv zeta. fold key.
    rewrite store_after_POST_lookup by exact Hf. fold key. fold e.
    rewrite decide_True by reflexivity. rewrite kept_default.
    rewrite Hstore. reflexivity.
  - (* DELETE *)
    cbn [of_call fmap option_fmap option_map call_key] in *.
    destruct (RepoIntegrationsRoute.falsy (RepoIntegrationsRoute.del_repo b)) eqn:Hfr.
    { unfold typed_on_store, on_store, run_call, DELETE,
        RepoIntegrationsRoute.run_call, RepoIntegrationsRoute.DELETE, of_repo.
      cbn [del_repo]. rewrite Hfr. reflexivity. }
    pose proof (of_repo_key _ Hfr) as Hkey.
    set (key := default "" (RepoIntegrationsRoute.del_repo b)) in *.
    specialize (Hrt key Hkey).
    destruct (RepoIntegrationsRoute.del_service b) as [s|] eqn:Hs.
    2:{ unfold typed_on_store, on_store, run_call, DELETE,
          RepoIntegrationsRoute.run_call, RepoIntegrationsRoute.DELETE.
        cbn [del_repo del_service fmap option_fmap option_map].
        rewrite Hkey, Hfr, Hs. reflexivity. }
    destruct (RepoIntegrationsRoute.falsy (Some s)) eqn:Hfs.
    { unfold typed_on_store, on_store, run_call, DELETE,
        RepoIntegrationsRoute.run_call, RepoIntegrationsRoute.DELETE.
      cbn [del_repo del_service fmap option_fmap option_map].
      rewrite Hkey, Hfr, Hs, Hfs.
      cbn in Hfs. destruct (decide (s = "")) as [->|]; [reflexivity | discriminate]. }
    destruct (RepoIntegrationsRoute.parse_service s) as [svc|] eqn:Hps.
    2:{ unfold typed_on_store, on_store, run_call, DELETE,
          RepoIntegrationsRoute.run_call, RepoIntegrationsRoute.DELETE.
        cbn [del_repo del_service fmap option_fmap option_map].
        rewrite Hkey, Hfr, Hs, Hfs, parse_service_key.
        change (default "" (Some s)) with s. rewrite Hps.
        cbn in Hfs. destruct (decide (s = "")) as [|Hne]; [discriminate|].
        cbn. rewrite bool_decide_eq_false_2 by exact Hne. reflexivity. }
    set (b' := {| del_repo := of_repo (RepoIntegrationsRoute.del_repo b);
                  del_service := JStr <$> Some s |}).
    destruct (DELETE_removes rt (of_store m) b' key (JStr s)
                (RepoIntegrationsRoute.service_name svc) Hkey eq_refl)
      as (m' & Hrun & Hm'); [rewrite parse_service_key, Hps; reflexivity | exact Hrt | |].
    { intros j Hj. rewrite of_store_lookup in Hj.
      destruct (m !! key); [|discriminate]. injection Hj as <-. eauto. }
    rewrite Hrun.
    assert (Hf : RepoIntegrationsRoute.falsy (RepoIntegrationsRoute.del_repo b)
                 || RepoIntegrationsRoute.falsy (RepoIntegrationsRoute.del_service b)
                 = false).
    { rewrite Hfr, Hs, Hfs. reflexivity. }
    assert (Hp : RepoIntegrationsRoute.parse_service
                   (default "" (RepoIntegrationsRoute.del_service b)) = Some svc).
    { rewrite Hs. exact Hps. }
    rewrite (typed_DELETE_response m b svc Hf Hp).
    assert (Hstore : m' = of_store (RepoIntegrationsRoute.store_after_call m
                                      (RepoIntegrationsRoute.CallDELETE (Some b)))).
    { apply map_eq. intros k. rewrite Hm'.
      rewrite (of_store_lookup (RepoIntegrationsRoute.store_after_call _ _) k).
      rewrite (store_after_DELETE_lookup m b svc k Hf Hp). fold key.
      destruct (decide (k = key)); [|apply of_store_lookup].
      rewrite of_store_lookup. destruct (m !! key) as [e0|]; [|reflexivity].
      cbn [fmap option_fmap option_map mbind option_bind].
      rewrite of_entry_delete. apply of_kept. }
    rewrite Hstore. reflexivity.
Qed.

End RouteAtDeclaredType.

(** ** The chat server: the middleware and requests of one session *)

Section ChatServerMore.
Import ChatServer.

Variable buildPromptWithHistory : list Message -> string.

Local Abbreviation run := (ChatServer.run buildPromptWithHistory).
Local Abbreviation step := (ChatServer.step buildPromptWithHistory).
Local Abbreviation post_chat := (ChatServer.post_chat buildPromptWithHistory).

(** X19. The middleware lets a request through exactly when its
    [x-api-key] header equals the configured key. A request it turns away
    is answered [Unauthorized] and leaves the server as it was: nothing
    is spawned, read or stored. The comparison treats an unset key like
    any other value: when no key is configured, a request that sends no
    header is let through. *)
Theorem serve_requires_matching_key (BACKEND_API_KEY : option string)
    (st : Server) (req : HttpRequest) :
  (x_api_key req <> BACKEND_API_KEY ->
   serve buildPromptWithHistory BACKEND_API_KEY st req = (st, Unauthorized))
  /\ (x_api_key req = BACKEND_API_KEY ->
      serve buildPromptWithHistory BACKEND_API_KEY st req
      = (step st (Request (body_sessionId req) (body_message req)),
         Streaming (length (tasks st)))
      /\ outstanding (fst (serve buildPromptWithHistory BACKEND_API_KEY st req))
         = S (outstanding st))
  /\ (BACKEND_API_KEY = None -> x_api_key req = None ->
      snd (serve buildPromptWithHistory BACKEND_API_KEY st req)
      = Streaming (length (tasks st))).
Proof.
  unfold serve, authorized. split; [|split].
  - intros Hne. rewrite bool_decide_eq_false_2 by assumption. reflexivity.
  - intros Heq. rewrite bool_decide_eq_true_2 by assumption. cbn [negb fst].
    split; [reflexivity|]. apply outstanding_request.
  - intros -> ->. reflexivity.
Qed.

Lemma run_app (tr1 tr2 : list Input) (st : Server) :
  run st (tr1 ++ tr2) = run (run st tr1) tr2.
Proof. unfold ChatServer.run. apply foldl_app. Qed.

Lemma run_cons (i : Input) (tr : list Input) (st : Server) :
  run st (i :: tr) = run (step st i) tr.
Proof. reflexivity. Qed.

(** A stretch of events of one process: the server moves as the
    listeners of that request move its task and the shared world. *)
Lemma run_one_process (evs : list ProcEvent) : forall (st : Server) (pid : nat)
    (t : Task),
  tasks st !! pid = Some t ->
  run st (map (Proc pid) evs)
  = {| shared := world (deliver evs {| task := t; world := shared st |});
       tasks := <[pid := task (deliver evs {| task := t; world := shared st |})]>
                  (tasks st) |}.
Proof.
  induction evs as [|ev evs IH]; intros st pid t Hl.
  - cbn. rewrite list_insert_id by assumption. destruct st; reflexivity.
  - cbn [map]. rewrite run_cons. cbn [ChatServer.step]. rewrite Hl.
    set (r := on_event ev {| task := t; world := shared st |}).
    rewrite (IH _ pid (task r)).
    + cbn [shared tasks]. rewrite list_insert_insert_eq, deliver_cons.
      fold r. destruct r as [tr wr]. reflexivity.
    + cbn [tasks]. apply list_lookup_insert_eq.
      eapply lookup_lt_Some; eassumption.
Qed.

(** What a successful close stores, from any open task. *)
Lemma db_after_success (pre : list ProcEvent) (r : Run) :
  first_close pre = None ->
  ended (res (task r)) = false ->
  db (world (deliver (pre ++ [close (Some 0%Z)]) r))
  = <[sessionId (task r) :=
        history (task r)
        ++ [{| role := assistant;
               content := responseContent (task r) +:+ join (stdout_texts pre) |}]]>
      (db (world r)).
Proof.
  intros Hpre He. rewrite deliver_app.
  destruct (deliver_open pre r Hpre He) as (H1&H2&_&H4&_&H6&_).
  change (deliver [close (Some 0%Z)] ?x) with (on_close (Some 0%Z) x).
  cbn [on_close world db]. rewrite H1, H2, H4, H6. reflexivity.
Qed.

(** X20. Turns accumulate when the requests of a session follow one
    another: if the first request ends with exit code 0 before the second
    is made, the second prompt is built from the history with the first
    exchange in it, and after the second success the row of the session
    holds both exchanges in order. *)
Theorem turns_accumulate_across_requests (w : World) (sid m1 m2 : string)
    (pre1 pre2 : list ProcEvent) :
  first_close pre1 = None ->
  first_close pre2 = None ->
  let h0 := default [] (db w !! sid) in
  let a1 := {| role := assistant; content := join (stdout_texts pre1) |} in
  let a2 := {| role := assistant; content := join (stdout_texts pre2) |} in
  let u1 := {| role := user; content := m1 |} in
  let u2 := {| role := user; content := m2 |} in
  let st := run {| shared := w; tasks := [] |}
              (Request sid m1 :: map (Proc 0) (pre1 ++ [close (Some 0%Z)])
               ++ Request sid m2 :: map (Proc 1) (pre2 ++ [close (Some 0%Z)])) in
  (args <$> (claude <$> tasks st !! 1))
  = Some ["-p"; buildPromptWithHistory (h0 ++ [u1; a1; u2])]
  /\ db (shared st) !! sid = Some (h0 ++ [u1; a1; u2; a2]).
Proof.
  intros Hp1 Hp2. cbv zeta.
  rewrite run_cons, run_app.
  rewrite (run_one_process _ (step {| shared := w; tasks := [] |} (Request sid m1))
             0 (task (post_chat w sid m1)) eq_refl).
  rewrite run_cons.
  cbn [ChatServer.step shared tasks app world ChatServer.post_chat task].
  set (t1 := {| sessionId := sid;
                history := default [] (db w !! sid)
                           ++ [{| role := user; content := m1 |}];
                claude := _; responseContent := ""; res := _ |}).
  set (r1 := deliver (pre1 ++ [close (Some 0%Z)]) {| task := t1; world := w |}).
  assert (Hdb1 : db (world r1) !! sid
                 = Some (default [] (db w !! sid)
                         ++ [{| role := user; content := m1 |};
                             {| role := assistant;
                                content := join (stdout_texts pre1) |}])).
  { unfold r1. rewrite db_after_success by (assumption || reflexivity).
    cbn [t1 task sessionId history responseContent].
    rewrite lookup_insert_eq, <- app_assoc. reflexivity. }
  set (t2 := {| sessionId := sid;
                history := default [] (db (world r1) !! sid)
                           ++ [{| role := user; content := m2 |}];
                claude := _; responseContent := ""; res := _ |}).
  rewrite (run_one_process _
             {| shared := world r1; tasks := <[0:=task r1]> [t1] ++ [t2] |}
             1 t2) by reflexivity.
  cbn [shared tasks].
  rewrite db_after_success by (assumption || reflexivity).
  split.
  - rewrite list_lookup_insert_eq by (cbn; lia).
    cbn [fmap option_fmap option_map].
    rewrite deliver_app.
    destruct (deliver_open pre2 {| task := t2; world := world r1 |} Hp2 eq_refl)
      as (_&_&H3&_).
    change (deliver [close (Some 0%Z)] ?x) with (on_close (Some 0%Z) x).
    cbn [on_close task claude mark_exited args]. rewrite H3.
    cbn [t2 task claude spawn args].
    rewrite Hdb1. cbn [from_option id]. rewrite <- app_assoc. reflexivity.
  - cbn [t2 task sessionId history responseContent].
    rewrite lookup_insert_eq, Hdb1. cbn [from_option id].
    rewrite <- !app_assoc. reflexivity.
Qed.

Lemma db_after_failure (pre : list ProcEvent) (code : option Z) (r : Run) :
  first_close pre = None ->
  ended (res (task r)) = false ->
  code <> Some 0%Z ->
  db (world (deliver (pre ++ [close code]) r)) = db (world r).
Proof.
  intros Hpre He Hcode. rewrite deliver_app.
  destruct (deliver_open pre r Hpre He) as (_&_&_&_&_&H6&_).
  change (deliver [close code] ?x) with (on_close code x).
  destruct code as [[| |]|]; try (exact H6). congruence.
Qed.

Lemma post_chat_task_db (w w' : World) (sid msg : string) :
  db w' = db w -> task (post_chat w' sid msg) = task (post_chat w sid msg).
Proof. intros H. unfold ChatServer.post_chat. rewrite H. reflexivity. Qed.

(** X21. A request whose process fails leaves no trace for later
    requests: the conversations table is as before, so the next request,
    of any session, is set up (history, prompt, process) exactly as if
    the failed request had never been made; the user message of the
    failed request is forgotten. *)
Theorem failed_request_leaves_no_trace (w : World) (sid m1 sid2 m2 : string)
    (pre : list ProcEvent) (code : option Z) :
  first_close pre = None ->
  code <> Some 0%Z ->
  let st := run {| shared := w; tasks := [] |}
              (Request sid m1 :: map (Proc 0) (pre ++ [close code])) in
  db (shared st) = db w
  /\ tasks (step st (Request sid2 m2)) !! 1 = Some (task (post_chat w sid2 m2)).
Proof.
  intros Hpre Hcode. cbv zeta. rewrite run_cons.
  rewrite (run_one_process _ (step {| shared := w; tasks := [] |} (Request sid m1))
             0 (task (post_chat w sid m1))) by reflexivity.
  cbn [ChatServer.step shared tasks app].
  change (world (post_chat w sid m1)) with w.
  assert (Hdb : db (world (deliver (pre ++ [close code])
                             {| task := task (post_chat w sid m1); world := w |}))
                = db w).
  { rewrite db_after_failure by (assumption || reflexivity). reflexivity. }
  split; [exact Hdb|].
  rewrite (post_chat_task_db w _ sid2 m2 Hdb). reflexivity.
Qed.

(** X22. Requests of one session that overlap do not merge their turns:
    each works on the history it read when it was accepted, and a
    successful close replaces the row of the session. When a second
    request is accepted before the first has closed and both succeed, the
    row holds the first exchange after the first close, and after the
    second close only the second exchange: the first is lost. *)
Theorem overlapping_requests_last_close_wins (w : World) (sid m1 m2 : string)
    (pre1 pre2 : list ProcEvent) :
  first_close pre1 = None ->
  first_close pre2 = None ->
  let h0 := default [] (db w !! sid) in
  let first := Request sid m1 :: Request sid m2
               :: map (Proc 0) (pre1 ++ [close (Some 0%Z)]) in
  let st1 := run {| shared := w; tasks := [] |} first in
  let st2 := run st1 (map (Proc 1) (pre2 ++ [close (Some 0%Z)])) in
  db (shared st1) !! sid
  = Some (h0 ++ [{| role := user; content := m1 |};
                 {| role := assistant; content := join (stdout_texts pre1) |}])
  /\ db (shared st2) !! sid
     = Some (h0 ++ [{| role := user; content := m2 |};
                    {| role := assistant; content := join (stdout_texts pre2) |}]).
Proof.
  intros Hp1 Hp2. cbv zeta. rewrite !run_cons.
  cbn [ChatServer.step shared tasks app world ChatServer.post_chat task].
  set (t1 := {| sessionId := sid;
                history := default [] (db w !! sid)
                           ++ [{| role := user; content := m1 |}];
                claude := _; responseContent := ""; res := _ |}).
  set (t2 := {| sessionId := sid;
                history := default [] (db w !! sid)
                           ++ [{| role := user; content := m2 |}];
                claude := _; responseContent := ""; res := _ |}).
  rewrite (run_one_process _ {| shared := w; tasks := [t1; t2] |} 0 t1)
    by reflexivity.
  cbn [shared tasks].
  set (r1 := deliver (pre1 ++ [close (Some 0%Z)]) {| task := t1; world := w |}).
  split.
  - unfold r1. rewrite db_after_success by (assumption || reflexivity).
    cbn [t1 task sessionId history responseContent].
    rewrite lookup_insert_eq, <- app_assoc. reflexivity.
  - rewrite (run_one_process _
               {| shared := world r1; tasks := <[0:=task r1]> [t1; t2] |} 1 t2)
      by reflexivity.
    cbn [shared]. rewrite db_after_success by (assumption || reflexivity).
    cbn [t2 task sessionId history responseContent].
    rewrite lookup_insert_eq, <- app_assoc. reflexivity.
Qed.

Lemma on_event_sessionId (ev : ProcEvent) (r : Run) :
  sessionId (task (on_event ev r)) = sessionId (task r).
Proof.
  destruct ev as [text|data|code]; cbn; try reflexivity.
  destruct code as [[| |]|]; reflexivity.
Qed.

Lemma on_event_db_other (ev : ProcEvent) (r : Run) (sid' : string) :
  sessionId (task r) <> sid' ->
  db (world (on_event ev r)) !! sid' = db (world r) !! sid'.
Proof.
  intros Hne. destruct ev as [text|data|code]; cbn; try reflexivity.
  destruct code as [[| |]|]; cbn; try reflexivity.
  apply lookup_insert_ne. exact Hne.
Qed.

(** X23. The row of a session changes only through that session's own
    requests: on a server none of whose tasks belongs to session [sid'],
    a trace without a request for [sid'] leaves the row of [sid'] as it
    was, whatever the other sessions do. *)
Theorem other_sessions_rows_untouched (tr : list Input) (sid' : string) :
  forall st : Server,
  Forall (fun t => sessionId t <> sid') (tasks st) ->
  Forall (fun i => forall m, i <> Request sid' m) tr ->
  db (shared (run st tr)) !! sid' = db (shared st) !! sid'.
Proof.
  induction tr as [|i tr IH]; intros st Htasks Htr; [reflexivity|].
  inversion Htr as [|? ? Hi Htr']; subst. rewrite run_cons.
  destruct i as [sid msg|pid ev].
  - rewrite IH; [reflexivity | | assumption].
    cbn [ChatServer.step tasks]. apply Forall_app. split; [assumption|].
    constructor; [|constructor]. cbn. intros ->. apply (Hi msg). reflexivity.
  - cbn [ChatServer.step]. destruct (tasks st !! pid) as [t|] eqn:Hl.
    + assert (Ht : sessionId t <> sid').
      { rewrite Forall_forall in Htasks. apply Htasks.
        eapply list_elem_of_lookup_2. eassumption. }
      rewrite IH; [| |assumption].
      * cbn [shared]. apply on_event_db_other. exact Ht.
      * cbn [tasks]. apply Forall_insert; [assumption|].
        rewrite on_event_sessionId. exact Ht.
    + apply IH; assumption.
Qed.

(** X24. A task sees only the events of its own process: two traces that
    agree on the events of process [pid] leave the task of request [pid]
    the same (its response, its accumulated output, its history),
    whatever else the traces hold. *)
Theorem task_sees_only_its_own_events (tr1 tr2 : list Input) (st : Server)
    (pid : nat) (t : Task) :
  tasks st !! pid = Some t ->
  events_for pid tr1 = events_for pid tr2 ->
  tasks (run st tr1) !! pid = tasks (run st tr2) !! pid.
Proof.
  intros Hl Hev.
  rewrite (run_task_projection buildPromptWithHistory tr1 st pid t (shared st) Hl).
  rewrite (run_task_projection buildPromptWithHistory tr2 st pid t (shared st) Hl).
  rewrite Hev. reflexivity.
Qed.

End ChatServerMore.

(** ** The further properties at concrete inputs *)

Section MoreWitnesses.
Import ChatServer.

Lemma submitted_message_is_trimmed_input_witness :
  snd (Workspace.handleSubmit_start (Samples.page (Js.lit " fix the bug ") false))
  = Some {| Workspace.chat_message := Js.lit "fix the bug";
            Workspace.chat_repoFullName := Js.lit "acme/site";
            Workspace.chat_sessionId := Js.lit "workspace-1" |}
  /\ Js.lit "fix the bug" <> [].
Proof.
  split; [reflexivity|].
  apply (proj1 (proj2 (submitted_message_is_trimmed_input
                         (Samples.page (Js.lit " fix the bug ") false)
                         {| Workspace.chat_message := Js.lit "fix the bug";
                            Workspace.chat_repoFullName := Js.lit "acme/site";
                            Workspace.chat_sessionId := Js.lit "workspace-1" |}
                         eq_refl))).
Defined.

Lemma buttons_follow_guards_witness :
  (Workspace.send_disabled (Samples.page (Js.lit "again") true) = true
   /\ snd (Workspace.handleSubmit_start (Samples.page (Js.lit "again") true)) = None)
  /\ (Workspace.committing Samples.changed_page = true
      /\ Js.falsy (Js.trim (Workspace.commitMessage Samples.changed_page)) = false
      /\ Workspace.commit_disabled Samples.changed_page = true).
Proof.
  split.
  - split; [reflexivity|].
    apply (proj1 (proj1 (buttons_follow_guards (Samples.page (Js.lit "again") true)))).
    reflexivity.
  - split; [reflexivity|]. split; [reflexivity|].
    apply (proj1 (proj2 (proj2 (buttons_follow_guards Samples.changed_page))
                    eq_refl eq_refl)).
Defined.

Lemma error_lines_are_not_chunks :
  Forall (fun line => forall d, Samples.parse_frame (drop 6 line) = Some d ->
                      Workspace.data_type d <> Some (Js.lit "chunk"))
    (concat (map (Js.split Js.LF) [Samples.error_line ++ [Js.LF; Js.LF]])).
Proof.
  vm_compute concat. repeat constructor; intros d H; vm_compute in H;
    try discriminate H; injection H as <-; vm_compute; discriminate.
Defined.

Lemma read_stream_shows_chunks_only_witness :
  Workspace.read_stream Samples.parse_frame [Samples.error_line ++ [Js.LF; Js.LF]]
  = [].
Proof.
  apply (proj2 (read_stream_shows_chunks_only Samples.parse_frame
                  [Samples.error_line ++ [Js.LF; Js.LF]])).
  exact error_lines_are_not_chunks.
Defined.

Lemma frame_cut_between_reads_is_lost_witness :
  Workspace.read_stream Samples.parse_frame
    [take 12 Samples.chunk_line ++ drop 12 Samples.chunk_line] = Js.lit "Hello"
  /\ Workspace.read_stream Samples.parse_frame
       [take 12 Samples.chunk_line; drop 12 Samples.chunk_line] = [].
Proof.
  apply (frame_cut_between_reads_is_lost Samples.parse_frame
           (take 12 Samples.chunk_line) (drop 12 Samples.chunk_line)
           (Js.lit "Hello")).
  - vm_compute. lia.
  - vm_compute. reflexivity.
  - vm_compute. reflexivity.
  - discriminate.
  - vm_compute. reflexivity.
  - vm_compute. reflexivity.
Defined.

Lemma submit_always_settles_witness :
  Workspace.handleSubmit_start (Samples.page (Js.lit " fix the bug ") false)
  = (fst (Workspace.handleSubmit_start (Samples.page (Js.lit " fix the bug ") false)),
     Some {| Workspace.chat_message := Js.lit "fix the bug";
             Workspace.chat_repoFullName := Js.lit "acme/site";
             Workspace.chat_sessionId := Js.lit "workspace-1" |})
  /\ Workspace.loading
       (Workspace.handleSubmit_settle Samples.parse_frame
          (fst (Workspace.handleSubmit_start
                  (Samples.page (Js.lit " fix the bug ") false)))
          (Workspace.stream_failed [Samples.chunk_line]) None) = false.
Proof.
  split; [reflexivity|].
  apply (proj1 (submit_always_settles Samples.parse_frame
                  (Samples.page (Js.lit " fix the bug ") false) _ _
                  (Workspace.stream_failed [Samples.chunk_line]) None eq_refl)).
Defined.

Lemma badge_iff_positive_count_witness :
  Workspace.hasChanges Samples.changed_page = true
  /\ 0 < Workspace.changesCount Samples.changed_page.
Proof.
  split; [reflexivity|].
  apply (proj1 (proj1 (badge_iff_positive_count Samples.changed_page))).
  reflexivity.
Defined.

Lemma classification_by_last_piece_witness :
  ~ In Js.DOT (Js.lit "PNG")
  /\ FileViewer.isImageFile Samples.ascii_lower
       (Js.lit "logo.min" ++ Js.DOT :: Js.lit "PNG")
     = FileViewer.isImageFile Samples.ascii_lower (Js.lit "PNG").
Proof.
  split; [vm_compute; lia|].
  apply (proj1 (proj2 (proj2 (classification_by_last_piece Samples.ascii_lower
                                (Js.lit "logo.min") (Js.lit "PNG")
                                ltac:(vm_compute; lia))))).
Defined.

Lemma classes_are_disjoint_witness :
  FileViewer.isMarkdownFile Samples.ascii_lower (Js.lit "README.md") = true
  /\ FileViewer.decode_effect Samples.ascii_lower Samples.atob_sample
       (Js.lit "base64") (Js.lit "README.md") (Js.lit "IyBIaQ==") []
     = Js.lit "# Hi"
  /\ FileViewer.decode_effect Samples.ascii_lower Samples.atob_sample
       (Js.lit "base64") (Js.lit "README.md") (Js.lit "# Hi") []
     = Js.lit "Unable to decode file content".
Proof.
  destruct (classes_are_disjoint Samples.ascii_lower Samples.atob_sample
              (Js.lit "README.md")) as (_ & _ & _ & Hmd & _).
  split; [vm_compute; reflexivity|].
  split; rewrite Hmd by (vm_compute; reflexivity); vm_compute; reflexivity.
Defined.

Lemma parentPath_drops_last_piece_witness :
  ~ In Js.SLASH (Js.lit "page.tsx")
  /\ FileViewer.parentPath (Js.lit "app/workspace" ++ Js.SLASH :: Js.lit "page.tsx")
     = Js.lit "app/workspace".
Proof.
  split; [vm_compute; lia|].
  apply (proj1 (parentPath_drops_last_piece (Js.lit "app/workspace")
                  (Js.lit "page.tsx") ltac:(vm_compute; lia))).
Defined.

Lemma handlers_touch_only_named_repo_witness :
  RepoIntegrationsRoute.call_repo
    (RepoIntegrationsRoute.CallDELETE
       (Some {| RepoIntegrationsRoute.del_repo := Some "acme/docs";
                RepoIntegrationsRoute.del_service := Some "vercel" |}))
  <> Some "acme/site"
  /\ RepoIntegrationsRoute.persisted Samples.parse (Some Samples.cookie_text)
       (RepoIntegrationsRoute.run_call Samples.parse (Some Samples.cookie_text)
          (RepoIntegrationsRoute.CallDELETE
             (Some {| RepoIntegrationsRoute.del_repo := Some "acme/docs";
                      RepoIntegrationsRoute.del_service := Some "vercel" |})))
       !! "acme/site"
     = RepoIntegrationsRoute.getRepoIntegrations Samples.parse
         (Some Samples.cookie_text) !! "acme/site".
Proof.
  split; [discriminate|].
  apply (handlers_touch_only_named_repo Samples.parse (Some Samples.cookie_text)).
  discriminate.
Defined.

Lemma DELETE_undoes_POST_witness :
  "acme/docs" <> ""
  /\ Samples.store !! "acme/docs" = None
  /\ RepoIntegrationsRoute.store_after_call
       (RepoIntegrationsRoute.store_after_call Samples.store
          (RepoIntegrationsRoute.CallPOST
             (Some {| RepoIntegrationsRoute.post_repo := Some "acme/docs";
                      RepoIntegrationsRoute.post_vercel :=
                        RepoIntegrationsRoute.Value Samples.site_on_vercel;
                      RepoIntegrationsRoute.post_supabase :=
                        RepoIntegrationsRoute.Undefined |})))
       (RepoIntegrationsRoute.CallDELETE
          (Some {| RepoIntegrationsRoute.del_repo := Some "acme/docs";
                   RepoIntegrationsRoute.del_service := Some "vercel" |}))
     = Samples.store.
Proof.
  split; [discriminate|]. split; [vm_compute; reflexivity|].
  apply (proj1 (DELETE_undoes_POST Samples.store "acme/docs"
                  Samples.site_on_vercel Samples.site_on_supabase
                  ltac:(discriminate) ltac:(vm_compute; reflexivity))).
Defined.

Lemma serve_requires_matching_key_witness :
  (ChatServer.x_api_key (Samples.keyed_request (Some "guess")) <> Some "secret"
   /\ serve Samples.build_prompt (Some "secret") boot
        (Samples.keyed_request (Some "guess"))
      = (boot, Unauthorized))
  /\ snd (serve Samples.build_prompt None boot (Samples.keyed_request None))
     = Streaming 0.
Proof.
  split.
  - split; [discriminate|].
    apply (proj1 (serve_requires_matching_key Samples.build_prompt (Some "secret")
                    boot (Samples.keyed_request (Some "guess")))).
    discriminate.
  - apply (proj2 (proj2 (serve_requires_matching_key Samples.build_prompt None
                           boot (Samples.keyed_request None)))
             eq_refl eq_refl).
Defined.

Lemma turns_accumulate_across_requests_witness :
  first_close [stdout_data "Hel"; stdout_data "lo"] = None
  /\ first_close [stdout_data "Bye"] = None
  /\ db (shared (run Samples.build_prompt
                   {| shared := Samples.empty_world; tasks := [] |}
                   (Request "s1" "hi"
                    :: map (Proc 0) ([stdout_data "Hel"; stdout_data "lo"]
                                     ++ [close (Some 0%Z)])
                    ++ Request "s1" "thanks"
                    :: map (Proc 1) ([stdout_data "Bye"] ++ [close (Some 0%Z)]))))
       !! "s1"
     = Some [ {| role := user; content := "hi" |};
              {| role := assistant; content := "Hello" |};
              {| role := user; content := "thanks" |};
              {| role := assistant; content := "Bye" |} ].
Proof.
  split; [reflexivity|]. split; [reflexivity|].
  apply (proj2 (turns_accumulate_across_requests Samples.build_prompt
                  Samples.empty_world "s1" "hi" "thanks"
                  [stdout_data "Hel"; stdout_data "lo"] [stdout_data "Bye"]
                  eq_refl eq_refl)).
Defined.

Lemma failed_request_leaves_no_trace_witness :
  first_close [stdout_data "par"; stderr_data "ENOMEM"] = None
  /\ Some 1%Z <> Some 0%Z
  /\ db (shared (run Samples.build_prompt
                   {| shared := Samples.empty_world; tasks := [] |}
                   (Request "s1" "hi"
                    :: map (Proc 0) ([stdout_data "par"; stderr_data "ENOMEM"]
                                     ++ [close (Some 1%Z)]))))
     = db Samples.empty_world.
Proof.
  split; [reflexivity|]. split; [discriminate|].
  apply (proj1 (failed_request_leaves_no_trace Samples.build_prompt
                  Samples.empty_world "s1" "hi" "s1" "again"
                  [stdout_data "par"; stderr_data "ENOMEM"] (Some 1%Z)
                  eq_refl ltac:(discriminate))).
Defined.

Lemma overlapping_requests_last_close_wins_witness :
  first_close [stdout_data "one"] = None
  /\ first_close [stdout_data "two"] = None
  /\ db (shared (run Samples.build_prompt
                   (run Samples.build_prompt
                      {| shared := Samples.empty_world; tasks := [] |}
                      (Request "s1" "first" :: Request "s1" "second"
                       :: map (Proc 0) ([stdout_data "one"] ++ [close (Some 0%Z)])))
                   (map (Proc 1) ([stdout_data "two"] ++ [close (Some 0%Z)]))))
       !! "s1"
     = Some [ {| role := user; content := "second" |};
              {| role := assistant; content := "two" |} ].
Proof.
  split; [reflexivity|]. split; [reflexivity|].
  apply (proj2 (overlapping_requests_last_close_wins Samples.build_prompt
                  Samples.empty_world "s1" "first" "second"
                  [stdout_data "one"] [stdout_data "two"] eq_refl eq_refl)).
Defined.

Lemma other_sessions_rows_untouched_witness :
  Forall (fun t => sessionId t <> "s2") (tasks boot)
  /\ Forall (fun i => forall m, i <> Request "s2" m)
       [Request "s1" "hi"; Proc 0 (stdout_data "Hello"); Proc 0 (close (Some 0%Z))]
  /\ db (shared (run Samples.build_prompt boot
                   [Request "s1" "hi"; Proc 0 (stdout_data "Hello");
                    Proc 0 (close (Some 0%Z))])) !! "s2"
     = db (shared boot) !! "s2".
Proof.
  assert (H1 : Forall (fun t => sessionId t <> "s2") (tasks boot))
    by constructor.
  assert (H2 : Forall (fun i => forall m, i <> Request "s2" m)
                 [Request "s1" "hi"; Proc 0 (stdout_data "Hello");
                  Proc 0 (close (Some 0%Z))])
    by (repeat constructor; intros m; discriminate).
  split; [exact H1|]. split; [exact H2|].
  apply (other_sessions_rows_untouched Samples.build_prompt _ "s2" boot H1 H2).
Defined.

Lemma task_sees_only_its_own_events_witness :
  let st := step Samples.build_prompt
              (step Samples.build_prompt boot (Request "s1" "a"))
              (Request "s2" "b") in
  events_for 0 [Proc 0 (stdout_data "x"); Proc 1 (stdout_data "noise");
                Proc 1 (close (Some 1%Z)); Proc 0 (close (Some 0%Z))]
  = events_for 0 [Proc 0 (stdout_data "x"); Proc 0 (close (Some 0%Z))]
  /\ tasks (run Samples.build_prompt st
              [Proc 0 (stdout_data "x"); Proc 1 (stdout_data "noise");
               Proc 1 (close (Some 1%Z)); Proc 0 (close (Some 0%Z))]) !! 0
     = tasks (run Samples.build_prompt st
                [Proc 0 (stdout_data "x"); Proc 0 (close (Some 0%Z))]) !! 0.
Proof.
  cbv zeta. split; [reflexivity|].
  apply (task_sees_only_its_own_events Samples.build_prompt _ _ _ 0
           (task (post_chat Samples.build_prompt
                    (shared boot) "s1" "a"))).
  - reflexivity.
  - reflexivity.
Defined.

End MoreWitnesses.

Section MoreRouteWitnesses.
Import RepoIntegrationsJs.



Lemma typed_route_is_the_route_at_run_time_witness :
  (forall key,
     call_key (DeclaredType.of_call
                 (RepoIntegrationsRoute.CallDELETE
                    (Some {| RepoIntegrationsRoute.del_repo := Some "acme/site";
                             RepoIntegrationsRoute.del_service := Some "vercel" |})))
     = Some key ->
     Samples.node_runtime key = inh_none)
  /\ on_store Samples.node_runtime (JObj (DeclaredType.of_store Samples.store))
       (DeclaredType.of_call
          (RepoIntegrationsRoute.CallDELETE
             (Some {| RepoIntegrationsRoute.del_repo := Some "acme/site";
                      RepoIntegrationsRoute.del_service := Some "vercel" |})))
     = Answer {| status := 200; payload := DeleteOk; set_cookie := Some (JObj ∅) |}.
Proof.
  assert (Hrt : forall key,
            call_key (DeclaredType.of_call
                        (RepoIntegrationsRoute.CallDELETE
                           (Some {| RepoIntegrationsRoute.del_repo := Some "acme/site";
                                    RepoIntegrationsRoute.del_service := Some "vercel" |})))
            = Some key ->
            Samples.node_runtime key = inh_none).
  { intros key [= <-]. reflexivity. }
  split; [exact Hrt|].
  rewrite (typed_route_is_the_route_at_run_time Samples.node_runtime Samples.store
             _ Hrt).
  vm_compute. reflexivity.
Defined.

End MoreRouteWitnesses.
